(** * c2rust helper scripts: [build_ast_extractor.py] and [transpile.py]

    A shallow embedding of the two orchestration scripts.  Python [str]
    values are [string]s, the file system is a finite map from paths to
    file contents, and every function that can call [die], raise an
    exception or launch an external program is a computation in the
    monad [M] below: it threads the file system together with the list
    of launched programs, and ends in a value, in [die] or in an
    exception. *)

From Stdlib Require Import ZArith Ascii List Bool Lia.
From stdpp Require Import gmap strings list pretty.

Import ListNotations.
Open Scope Z_scope.

(** ** Python strings *)

Module Str.

(** [s.startswith(p)] *)
Fixpoint startswith (s p : string) : bool :=
  match p, s with
  | EmptyString, _ => true
  | String a p', String b s' => Ascii.eqb a b && startswith s' p'
  | String _ _, EmptyString => false
  end.

(** [p in s] for two strings *)
Fixpoint contains (p s : string) : bool :=
  startswith s p ||
  match s with
  | EmptyString => false
  | String _ s' => contains p s'
  end.

(** [s.endswith(p)] *)
Fixpoint endswith (s p : string) : bool :=
  String.eqb s p ||
  match s with
  | EmptyString => false
  | String _ s' => endswith s' p
  end.

(** [s[n:]] *)
Fixpoint drop (n : nat) (s : string) : string :=
  match n, s with
  | O, _ => s
  | S n', String _ s' => drop n' s'
  | S _, EmptyString => EmptyString
  end.

(** [s.replace(old, new)] for a non-empty [old]: the occurrences are
    replaced from left to right and do not overlap.  The fuel is the
    length of [s], enough for every position. *)
Fixpoint replace_go (fuel : nat) (old new s : string) : string :=
  match fuel with
  | O => s
  | S fuel' =>
      match s with
      | EmptyString => EmptyString
      | String c s' =>
          if startswith s old
          then new +:+ replace_go fuel' old new (drop (String.length old) s)
          else String c (replace_go fuel' old new s')
      end
  end.

Definition replace (s old new : string) : string :=
  replace_go (String.length s) old new s.

(** [sep.join(l)] *)
Fixpoint join (sep : string) (l : list string) : string :=
  match l with
  | [] => EmptyString
  | [x] => x
  | x :: l' => x +:+ sep +:+ join sep l'
  end.

Definition LF : ascii := "010"%char.
Definition CR : ascii := "013"%char.
Definition DQUOTE : ascii := "034"%char.

(** [os.linesep] on the POSIX hosts the scripts support *)
Definition linesep : string := String LF EmptyString.

(** Text-mode reading (universal newlines): a carriage return, with
    or without a following line feed, is read as a line feed.
    [after_cr] tells that the previous character was a carriage
    return. *)
Fixpoint universal_newlines (after_cr : bool) (s : string) : string :=
  match s with
  | EmptyString => EmptyString
  | String c s' =>
      if Ascii.eqb c CR then String LF (universal_newlines true s')
      else if Ascii.eqb c LF then
        if after_cr then universal_newlines false s'
        else String LF (universal_newlines false s')
      else String c (universal_newlines false s')
  end.

(** Cut a text at its line feeds; every line keeps its line feed. *)
Fixpoint splitlines_keepends (s : string) : list string :=
  match s with
  | EmptyString => []
  | String c s' =>
      if Ascii.eqb c LF then String c EmptyString :: splitlines_keepends s'
      else match splitlines_keepends s' with
           | [] => [String c EmptyString]
           | l :: ls => String c l :: ls
           end
  end.

(** [s.split(sep)] for a one-character separator *)
Fixpoint split (sep : ascii) (s : string) : list string :=
  match s with
  | EmptyString => [EmptyString]
  | String c s' =>
      if Ascii.eqb c sep then EmptyString :: split sep s'
      else match split sep s' with
           | [] => [String c EmptyString]
           | l :: ls => String c l :: ls
           end
  end.

(** White space of [str.strip] and of the pattern [\s], for the
    characters below 128. *)
Definition is_space (c : ascii) : bool :=
  let n := nat_of_ascii c in
  ((9 <=? n) && (n <=? 13) || (28 <=? n) && (n <=? 32))%nat.

(** Word characters of the pattern [\w], for the characters below 128. *)
Definition is_word (c : ascii) : bool :=
  let n := nat_of_ascii c in
  ((48 <=? n) && (n <=? 57) || (65 <=? n) && (n <=? 90)
   || (97 <=? n) && (n <=? 122) || (n =? 95))%nat.

Fixpoint lstrip (s : string) : string :=
  match s with
  | EmptyString => EmptyString
  | String c s' => if is_space c then lstrip s' else s
  end.

Fixpoint rstrip (s : string) : string :=
  match s with
  | EmptyString => EmptyString
  | String c s' =>
      match rstrip s' with
      | EmptyString => if is_space c then EmptyString else String c EmptyString
      | r => String c r
      end
  end.

(** No character of [s] ends a line. *)
Fixpoint no_newline (s : string) : bool :=
  match s with
  | EmptyString => true
  | String c s' => negb (Ascii.eqb c CR) && negb (Ascii.eqb c LF) && no_newline s'
  end.

(** [s.strip()] *)
Definition strip (s : string) : string := rstrip (lstrip s).

End Str.

(** ** [os.path] on POSIX *)

Module Path.

(** [os.path.join(a, b)] *)
Definition join (a b : string) : string :=
  if Str.startswith b "/" then b
  else if String.eqb a "" || Str.endswith a "/" then a +:+ b
  else a +:+ "/" +:+ b.

(** [(p[:i], p[i:])] with [i = p.rfind('/') + 1] *)
Fixpoint split_last_slash (p : string) : string * string :=
  match p with
  | EmptyString => (EmptyString, EmptyString)
  | String c p' =>
      let '(h, t) := split_last_slash p' in
      match h with
      | String _ _ => (String c h, t)
      | EmptyString =>
          if Ascii.eqb c "/" then (String c EmptyString, t)
          else (EmptyString, String c t)
      end
  end.

(** [head.rstrip('/')] *)
Fixpoint rstrip_slash (s : string) : string :=
  match s with
  | EmptyString => EmptyString
  | String c s' =>
      match rstrip_slash s' with
      | EmptyString => if Ascii.eqb c "/" then EmptyString else String c EmptyString
      | r => String c r
      end
  end.

(** [os.path.basename(p)] *)
Definition basename (p : string) : string := snd (split_last_slash p).

(** [os.path.dirname(p)] *)
Definition dirname (p : string) : string :=
  let head := fst (split_last_slash p) in
  match rstrip_slash head with
  | EmptyString => head
  | stripped => stripped
  end.

End Path.

(** ** The regular expressions of the scripts

    Both patterns are sequences of literal characters, character
    classes, greedy repetitions of a class and one capturing group.
    The matcher backtracks as Python's [re] does: a greedy repetition
    first takes as many characters as it can and gives them back one at
    a time while the rest of the pattern fails. *)

Module Re.

Inductive item : Type :=
| Lit (c : ascii)             (* one given character *)
| Cls (p : ascii -> bool)     (* one character of a class *)
| Star (p : ascii -> bool)    (* [p*], greedy *)
| Plus (p : ascii -> bool)    (* [p+], greedy *)
| GroupOpen                   (* [(] of group 1 *)
| GroupClose.                 (* [)] of group 1 *)

Definition pattern := list item.

Fixpoint lits (s : string) : pattern :=
  match s with
  | EmptyString => []
  | String c s' => Lit c :: lits s'
  end.

(** One or more characters of [p], the longest run first, then the
    continuation [k] on what is left. *)
Fixpoint greedy (p : ascii -> bool) (k : string -> option string)
    (s : string) : option string :=
  match s with
  | EmptyString => None
  | String c s' =>
      if p c then
        match greedy p k s' with
        | Some r => Some r
        | None => k s'
        end
      else None
  end.

(** The text between the place where the group opened ([from]) and
    the current place ([s], a suffix of [from]). *)
Definition captured (from s : string) : string :=
  String.substring 0 (String.length from - String.length s) from.

(** Match [r] at the start of [s]; the result is group 1.  [from] is
    the text at the opening of the group, [grp] the group once closed. *)
Fixpoint match_here (r : pattern) (from grp s : string) : option string :=
  match r with
  | [] => Some grp
  | Lit c :: r' =>
      match s with
      | String d s' => if Ascii.eqb c d then match_here r' from grp s' else None
      | EmptyString => None
      end
  | Cls p :: r' =>
      match s with
      | String d s' => if p d then match_here r' from grp s' else None
      | EmptyString => None
      end
  | Star p :: r' =>
      match greedy p (match_here r' from grp) s with
      | Some g => Some g
      | None => match_here r' from grp s
      end
  | Plus p :: r' => greedy p (match_here r' from grp) s
  | GroupOpen :: r' => match_here r' s grp s
  | GroupClose :: r' => match_here r' from (captured from s) s
  end.

(** [re.match(r, s)]: group 1 of a match at the start of [s] *)
Definition rmatch (r : pattern) (s : string) : option string :=
  match_here r EmptyString EmptyString s.

(** [re.search(r, s)]: group 1 of the leftmost match *)
Fixpoint search (r : pattern) (s : string) : option string :=
  match rmatch r s with
  | Some g => Some g
  | None =>
      match s with
      | EmptyString => None
      | String _ s' => search r s'
      end
  end.

Definition not_nul (c : ascii) : bool := negb (Ascii.eqb c "000").

(** [r"\s-o\s+([^\0]+\.o)\s"] of [try_locate_elf_object] *)
Definition output_flag : pattern :=
  [Cls Str.is_space; Lit "-"; Lit "o"; Plus Str.is_space;
   GroupOpen; Plus not_nul; Lit "."; Lit "o"; GroupClose;
   Cls Str.is_space].

(** [r'^#\s*Configuration:\s*(\w+)'] of [get_ninja_build_type]; the
    pattern is only used with [match], which anchors it already. *)
Definition configuration : pattern :=
  [Lit "#"; Star Str.is_space] ++ lits "Configuration:" ++
  [Star Str.is_space; GroupOpen; Plus Str.is_word; GroupClose].

End Re.

(** ** Outcomes, state and the monad of the scripts *)

(** The exceptions the two scripts can meet. *)
Inductive exn : Type :=
| NameError (name : string)
| KeyError (key : string)
| IndexError
| AssertionError (msg : string)
| ValueError (msg : string)
| FileNotFoundError (path : string)
| ProcessExecutionError (retcode : Z) (stderr : string).

(** How a computation ends: with a value, in [die] (the logged message
    and the exit code given to [quit]), or in an exception. *)
Inductive outcome (A : Type) : Type :=
| Ok (a : A)
| Die (emsg : string) (ecode : Z)
| Raise (e : exn).
Arguments Ok {A} a.
Arguments Die {A} emsg ecode.
Arguments Raise {A} e.

(** The exit status of the interpreter when the main thread ends with
    the given outcome: [quit(ecode)] exits with the low eight bits of
    [ecode], an exception that nobody handles prints a traceback and
    exits with status 1. *)
Definition exit_status {A} (o : outcome A) : Z :=
  match o with
  | Ok _ => 0
  | Die _ ecode => ecode mod 256
  | Raise _ => 1
  end.

(** The state: regular files with their contents, and the programs
    launched so far, oldest first, each with its arguments. *)
Record state : Type := State {
  fs : gmap string string;
  launched : list (string * list string)
}.

Definition M (A : Type) : Type := state -> outcome A * state.

Global Instance M_ret : MRet M := fun A (a : A) st => (Ok a, st).

Global Instance M_bind : MBind M := fun A B (k : A -> M B) (m : M A) st =>
  match m st with
  | (Ok a, st') => k a st'
  | (Die emsg ecode, st') => (Die emsg ecode, st')
  | (Raise e, st') => (Raise e, st')
  end.

Definition ret {A} (a : A) : M A := mret a.

Definition raise {A} (e : exn) : M A := fun st => (Raise e, st).

(** [errno.ENOENT] *)
Definition ENOENT : Z := 2.

(** [die(emsg, ecode=1)]: log the error and [quit(ecode)]. *)
Definition die {A} (emsg : string) (ecode : Z) : M A :=
  fun st => (Die emsg ecode, st).

(** [assert cond, msg] *)
Definition assert (cond : bool) (msg : string) : M unit :=
  if cond then ret tt else raise (AssertionError msg).

(** [for x in l: body(x)] *)
Fixpoint for_each {A} (l : list A) (body : A -> M unit) : M unit :=
  match l with
  | [] => ret tt
  | x :: l' => body x;; for_each l' body
  end.

(** [[f(x) for x in l]] with an [f] that may fail *)
Fixpoint map_m {A B} (f : A -> M B) (l : list A) : M (list B) :=
  match l with
  | [] => ret []
  | x :: l' => y ← f x; ys ← map_m f l'; ret (y :: ys)
  end.

(** [[x for x in l if p(x)]] with a [p] that may fail *)
Fixpoint filter_m {A} (p : A -> M bool) (l : list A) : M (list A) :=
  match l with
  | [] => ret []
  | x :: l' =>
      keep ← p x; xs ← filter_m p l';
      ret (if keep : bool then x :: xs else xs)
  end.

(** [try: body except pb.ProcessExecutionError as pee: handler(pee)] *)
Definition try_except_process_error {A} (body : M A)
    (handler : Z -> string -> M A) : M A :=
  fun st =>
    match body st with
    | (Raise (ProcessExecutionError rc err), st') => handler rc err st'
    | r => r
    end.

(** [os.path.isfile(path)].  A path is looked up as it is written:
    the working directory that [pb.local.cwd] sets is not modelled. *)
Definition isfile (path : string) : M bool :=
  fun st => (Ok (if fs st !! path is Some _ then true else false), st).

(** [open(path, "r").readlines()].  The text of a file is kept as its
    characters: the decoding that [open] does is not modelled, which
    is exact for the texts of [ascii_text] below. *)
Definition readlines (path : string) : M (list string) :=
  fun st =>
    match fs st !! path with
    | Some text =>
        (Ok (Str.splitlines_keepends (Str.universal_newlines false text)), st)
    | None => (Raise (FileNotFoundError path), st)
    end.

(** [open(path, "a+").writelines(text)]: the file is created when it
    is missing. *)
Definition append_file (path text : string) : M unit :=
  fun st =>
    (Ok tt, {| fs := <[path := default EmptyString (fs st !! path) +:+ text]> (fs st);
               launched := launched st |}).

(** ** The outside world *)

(** One element of [compile_commands.json]: a JSON object in which
    each of the four keys the scripts read may be missing. *)
Record compile_cmd : Type := CompileCmd {
  arguments : option (list string);
  command : option string;
  directory : option string;
  file : option string
}.

(** What a finished program leaves behind. *)
Record proc_result : Type := ProcResult {
  retcode : Z;
  stdout : string;
  stderr : string;
  fs_after : gmap string string
}.

(** Everything the scripts take from their host: the programs found
    in the search path ([which]), what a program does when it is
    launched with given arguments on a given file system ([exec]), and
    three library functions whose text is only ever logged:
    [json.dumps] with the options of [json_pp_obj], the rendering of a
    plumbum command and [os.strerror], and the members of the
    enumeration [signal.Signals]: [signal_name n] is the name of
    [signal.Signals(n)], and [None] when the host has no signal with
    the number [n], where [signal.Signals(n)] raises [ValueError]. *)
Record World : Type := {
  which : string -> bool;
  exec : string -> list string -> gmap string string -> proc_result;
  json_dumps : compile_cmd -> string;
  str_cmd : string -> list string -> string;
  strerror : Z -> string;
  signal_name : Z -> option string
}.

(** Command-line arguments of [build_ast_extractor.py]. *)
Record build_args : Type := BuildArgs {
  clean_all : bool;
  debug : bool;
  sanity_test : bool
}.

(** Command-line arguments of [transpile.py].  The open file
    [args.commands_json] is given by its name and by the array that
    [json.load] reads from it. *)
Record transpile_args : Type := TranspileArgs {
  commands_json_name : string;
  commands_json_load : list compile_cmd;
  arg_import_only : bool;
  arg_filter : string;
  arg_jobs : Z
}.

(** The literal ["\n"] *)
Definition NL : string := String Str.LF EmptyString.

Section Scripts.

Variable w : World.

(** The directory above the one that holds the scripts. *)
Variable ROOT_DIR : string.

(** *** [build_ast_extractor.py] *)

Definition DEPS_DIR : string := Path.join ROOT_DIR "dependencies".
Definition CBOR_PREFIX : string := Path.join DEPS_DIR "tinycbor".
Definition LLVM_SRC : string := Path.join ROOT_DIR "llvm.src".
Definition LLVM_BLD : string := Path.join ROOT_DIR "llvm.build".
Definition LLVM_BIN : string := Path.join LLVM_BLD "bin".
Definition LLVM_PUBKEY : string := "8F0871F202119294".
Definition LLVM_VER : string := "4.0.1".

Definition LLVM_ARCHIVE_URLS : list string :=
  [ "http://releases.llvm.org/" +:+ LLVM_VER +:+ "/llvm-4.0.1.src.tar.xz";
    "http://releases.llvm.org/" +:+ LLVM_VER +:+ "/cfe-" +:+ LLVM_VER +:+ ".src.tar.xz";
    "http://releases.llvm.org/" +:+ LLVM_VER +:+ "/clang-tools-extra-" +:+ LLVM_VER +:+ ".src.tar.xz";
    "http://releases.llvm.org/" +:+ LLVM_VER +:+ "/clang-tools-extra-" +:+ LLVM_VER +:+ ".src.tar.xz" ].
Definition LLVM_SIGNATURE_URLS : list string :=
  map (fun s => s +:+ ".sig") LLVM_ARCHIVE_URLS.
Definition LLVM_ARCHIVE_DIRS : list string :=
  map (fun s => Str.replace s ".tar.xz" "") (map Path.basename LLVM_ARCHIVE_URLS).
Definition LLVM_ARCHIVE_FILES : list string :=
  map (Path.join DEPS_DIR) (map Path.basename LLVM_ARCHIVE_URLS).

Definition KEYSERVER : string := "pgpkeys.mit.edu".


(** Launch [cmd] with [args] and wait for it: the program is added
    to the launched ones and the file system becomes what it leaves.
    The environment variables of the child ([pb.local.env]) are not
    modelled. *)
Definition popen (cmd : string) (args : list string) : M (Z * string * string) :=
  fun st =>
    let r := exec w cmd args (fs st) in
    (Ok (retcode r, stdout r, stderr r),
     {| fs := fs_after r; launched := launched st ++ [(cmd, args)] |}).

(** plumbum's [cmd[args].run(retcode=expected)], which [& pb.TEE] and
    [& pb.TEE()] follow too: unless [expected] is [None], an exit
    status other than the expected one raises [ProcessExecutionError]. *)
Definition run (expected : option Z) (cmd : string) (args : list string)
    : M (Z * string * string) :=
  r ← popen cmd args;
  match expected with
  | Some e =>
      if decide (r.1.1 = e) then ret r
      else raise (ProcessExecutionError r.1.1 r.2)
  | None => ret r
  end.

(** plumbum's [cmd(args)]: the standard output of a successful run. *)
Definition call (cmd : string) (args : list string) : M string :=
  r ← run (Some 0) cmd args; ret r.1.2.

Definition _invoke (console_output : bool) (cmd : string)
    (arguments : list string) : M (Z * string * string) :=
  try_except_process_error
    (run (Some 0) cmd arguments)
    (fun rc _ =>
       let msg := "cmd exited with code " +:+ pretty rc +:+ ": " +:+
                  str_cmd w cmd arguments in
       die msg rc).

Definition invoke (cmd : string) (arguments : list string) :=
  _invoke true cmd arguments.

Definition invoke_quietly (cmd : string) (arguments : list string) :=
  _invoke false cmd arguments.

(** [pb.local[cmd]] raises [CommandNotFound] when the lookup fails. *)
Definition get_cmd_or_die (cmd : string) : M string :=
  if which w cmd then ret cmd
  else die (cmd +:+ " not in path") ENOENT.

(** The local [expected] of [check_sig]:
    [Good signature from "Tom Stellard <tom@stellard.net>"], with
    its two double quotes. *)
Definition expected_signature : string :=
  "Good signature from " +:+
  String Str.DQUOTE ("Tom Stellard <tom@stellard.net>" +:+
                     String Str.DQUOTE EmptyString).

(** The [except pb.ProcessExecutionError] clause of [check_sig] has
    nothing to catch: [run(retcode=None)] accepts every exit status,
    and the [SystemExit] of [die] is not a [ProcessExecutionError]. *)
Definition check_sig (afile asigfile : string) : M unit :=
  gpg ← get_cmd_or_die "gpg";
  call gpg ["--keyserver"; KEYSERVER; "--recv-key"; LLVM_PUBKEY];;
  let expected := expected_signature in
  '(retcode, _, stderr) ← run None gpg ["--verify"; asigfile; afile];
  (if decide (retcode ≠ 0)
   then die ("gpg signature check failed: gpg exit code " +:+ pretty retcode) 1
   else ret tt);;
  (if negb (Str.contains expected stderr)
   then die "gpg signature check failed: expected signature not found" 1
   else ret tt).

(** The loop of [download_llvm_sources] over the archives: one
    iteration for each tuple of the [zip]. *)
Definition fetch_archive (curl : string)
    (a : string * string * string * string) : M unit :=
  let '(aurl, asig, afile, _) := a in
  present ← isfile afile;
  if negb present then
    call curl [aurl; "-o"; afile];;
    let asigfile := afile +:+ ".sig" in
    sig_present ← isfile asig;
    (if negb sig_present then
       call curl [asig; "-o"; asigfile];; ret tt
     else ret tt);;
    check_sig afile asigfile
  else ret tt.

Definition fetch_archives (curl : string)
    (archives : list (string * string * string * string)) : M unit :=
  for_each archives (fetch_archive curl).

(** [zip(LLVM_ARCHIVE_URLS, LLVM_SIGNATURE_URLS, LLVM_ARCHIVE_FILES,
    LLVM_ARCHIVE_DIRS)] *)
Definition llvm_archives : list (string * string * string * string) :=
  zip (zip (zip LLVM_ARCHIVE_URLS LLVM_SIGNATURE_URLS) LLVM_ARCHIVE_FILES)
      LLVM_ARCHIVE_DIRS.

(** [download_llvm_sources] up to the end of its download loop; the
    unpacking that follows is not part of this development. *)
Definition download_llvm_sources : M unit :=
  curl ← get_cmd_or_die "curl";
  tar ← get_cmd_or_die "tar";
  fetch_archives curl llvm_archives.

(** The first line of [lines] that the pattern matches, with its
    group 1. *)
Fixpoint first_match (r : Re.pattern) (lines : list string) : option string :=
  match lines with
  | [] => None
  | line :: lines' =>
      match Re.rmatch r line with
      | Some g => Some g
      | None => first_match r lines'
      end
  end.

Definition get_ninja_build_type (ninja_build_file : string) : M string :=
  let signature := "# CMAKE generated file: DO NOT EDIT!" +:+ Str.linesep in
  lines ← readlines ninja_build_file;
  match lines with
  | [] => raise IndexError
  | line0 :: _ =>
      (if negb (String.eqb line0 signature)
       then die ("unexpected content in ninja.build: " +:+ ninja_build_file) 1
       else ret tt);;
      match first_match Re.configuration lines with
      | Some build_type => ret build_type
      | None => die ("missing content in ninja.build: " +:+ ninja_build_file) 1
      end
  end.

Definition configure_and_build_llvm (args : build_args) : M unit :=
  ninja ← get_cmd_or_die "ninja";
  let build_type := if debug args then "Debug" else "Release" in
  let ninja_build_file := Path.join LLVM_BLD "build.ninja" in
  present ← isfile ninja_build_file;
  run_cmake ← (if present : bool then
                 prev_build_type ← get_ninja_build_type ninja_build_file;
                 ret (negb (String.eqb prev_build_type build_type))
               else ret true);
  (if run_cmake : bool then
     cmake ← get_cmd_or_die "cmake";
     invoke cmake ["-G"; "Ninja"; LLVM_SRC;
                   "-Wno-dev";
                   "-DCMAKE_C_COMPILER=clang";
                   "-DCMAKE_CXX_COMPILER=clang++";
                   "-DLLVM_BUILD_TESTS=ON";
                   "-DCMAKE_BUILD_TYPE=" +:+ build_type;
                   "-DLLVM_ENABLE_ASSERTIONS=1";
                   "-DLLVM_TARGETS_TO_BUILD=X86"];; ret tt
   else ret tt);;
  invoke ninja ["ast-extractor"];; ret tt.



End Scripts.

Section Transpile.

Variable w : World.
Variable ROOT_DIR : string.

(** *** [build_ast_extractor.py], the functions [transpile.py] imports *)

(** [cmd[key]] on an entry of the compilation database *)
Definition getitem (field : compile_cmd -> option string) (key : string)
    (cmd : compile_cmd) : M string :=
  match field cmd with
  | Some v => ret v
  | None => raise (KeyError key)
  end.

Definition get_system_include_dirs : M (list string) :=
  cc ← get_cmd_or_die w "clang";
  '(_, _, stderr) ← run w (Some 0) cc ["-E"; "-Wp,-v"; "-"];
  let dirs := Str.split Str.LF stderr in
  ret (map Str.strip (List.filter (fun l => Str.startswith l " ") dirs)).

Definition extract_ast_from (ast_extr cc_db_path : string)
    (sys_incl_dirs : list string) (kwargs : compile_cmd) : M string :=
  filepath ← match directory kwargs, file kwargs with
             | Some dir, Some filename => ret (Path.join dir filename)
             | _, _ => die ("couldn't parse " +:+ cc_db_path) 1
             end;
  present ← isfile filepath;
  (if negb present then die ("missing file " +:+ filepath) 1 else ret tt);;
  let cc_db_dir := Path.dirname cc_db_path in
  let args := ["-p"; cc_db_dir; filepath] ++
              map (fun i => "-extra-arg=-I" +:+ i) sys_incl_dirs in
  try_except_process_error
    (run w (Some 0) ast_extr args;;
     let cbor_outfile := filepath +:+ ".cbor" in
     made ← isfile cbor_outfile;
     assert made ("missing: " +:+ cbor_outfile);;
     ret cbor_outfile)
    (fun rc _ =>
       mesg ← (if decide (0 ≤ rc) then ret (strerror w rc)
               else match signal_name w (- rc) with
                    | Some name => ret ("Received signal: " +:+ name)
                    | None => raise (ValueError (pretty (- rc) +:+
                                                 " is not a valid Signals"))
                    end);
       die ("sanity testing failed 🔥 : " +:+ mesg) rc).

(** *** [transpile.py] *)

Definition json_pp_obj (json_obj : compile_cmd) : string :=
  json_dumps w json_obj.

Definition try_locate_elf_object (cmd : compile_cmd) : M (option string) :=
  command ← match arguments cmd, command cmd with
            | Some args, _ => ret (Str.join " " args)
            | None, Some c => ret c
            | None, None =>
                die ("malformed entry in compile_commands.json:" +:+ NL +:+
                     json_pp_obj cmd) 1
            end;
  dir ← match directory cmd with
        | Some d => ret d
        | None =>
            die ("malformed entry in compile_commands.json:" +:+ NL +:+
                 json_pp_obj cmd) 1
        end;
  outpath ← match Re.search Re.output_flag command with
            | Some outfile => ret (Path.join dir outfile)
            | None =>
                f ← getitem file "file" cmd;
                let inpath := Path.join dir f in
                ret (Str.replace inpath ".c" ".o")
            end;
  found ← isfile outpath;
  ret (if found : bool then Some outpath else None).

Definition ensure_code_compiled_with_clang (cc_db : list compile_cmd) : M unit :=
  c_cc_db ← filter_m (fun c => f ← getitem file "file" c;
                               ret (Str.endswith f ".c")) cc_db;
  (if (length c_cc_db =? 0)%nat
   then die "didn't find any commands compling C files" 1
   else ret tt);;
  obj_files ← map_m try_locate_elf_object c_cc_db;
  readelf ← get_cmd_or_die w "readelf";
  comment_sections ← map_m (fun f => c ← call w readelf ["-p"; ".comment"; f];
                                     ret (f, c))
                           (omap id obj_files);
  let non_clang_files :=
    List.filter (fun fc : string * string => negb (Str.contains "clang" fc.2))
                comment_sections in
  if negb (length non_clang_files =? 0)%nat then
    let msg := "some ELF objects were not compiled with clang:" +:+ NL in
    let msg := msg +:+ Str.join NL (map fst comment_sections) in
    die msg 1
  else ret tt.

(** A name read inside the comprehension of [transpile_files].  The
    comprehension binds its loop variable only, and neither module
    has a global of the name looked up there, so a name that is not
    in [scope] is a [NameError]. *)
Definition load_name (scope : list (string * compile_cmd)) (name : string)
    : M compile_cmd :=
  match List.find (fun b => String.eqb b.1 name) scope with
  | Some b => ret b.2
  | None => raise (NameError name)
  end.

(** [[c for c in cc_db if args.filter in f['file']]] *)
Definition filter_cc_db (args : transpile_args) (cc_db : list compile_cmd)
    : M (list compile_cmd) :=
  filter_m (fun c => f ← load_name [("c", c)] "f";
                     name ← getitem file "file" f;
                     ret (Str.contains (arg_filter args) name)) cc_db.

(** The nested function of [transpile_files], with the variables it
    closes over as arguments. *)
Definition cbor_file_of (args : transpile_args) (ast_extr : string)
    (include_dirs : list string) (cmd : compile_cmd) : M string :=
  if arg_import_only args then
    dir ← getitem directory "directory" cmd;
    f ← getitem file "file" cmd;
    ret (Path.join dir (f +:+ ".cbor"))
  else
    extract_ast_from ast_extr (commands_json_name args) include_dirs cmd.

Definition transpile_single (args : transpile_args) (ast_extr ast_impo : string)
    (include_dirs : list string) (cmd : compile_cmd) : M unit :=
  cbor_file ← cbor_file_of args ast_extr include_dirs cmd;
  present ← isfile cbor_file;
  assert present ("missing: " +:+ cbor_file);;
  '(retcode, stdout, stderr) ← invoke_quietly w ast_impo [cbor_file];
  ret tt.

(** [executor.submit(fn, cmd)] of a [ThreadPoolExecutor]: the job
    runs in a worker thread, and whatever ends it, a value, the
    [SystemExit] of [die] or another exception, is kept in the future
    that [submit] returns.  The workers are run one after the other,
    in the order of submission. *)
Definition submit (job : M unit) : M (outcome unit) :=
  fun st => let '(r, st') := job st in (Ok r, st').

(** [with ThreadPoolExecutor(max_workers) as executor: body] *)
Definition with_thread_pool (max_workers : Z) (body : M unit) : M unit :=
  if decide (max_workers ≤ 0)
  then raise (ValueError "max_workers must be greater than 0")
  else body.

Definition transpile_files (args : transpile_args) : M unit :=
  ast_extr ← get_cmd_or_die w (Path.join (LLVM_BIN ROOT_DIR) "ast-extractor");
  ast_impo ← get_cmd_or_die w
               (Path.join ROOT_DIR "ast-importer/target/debug/ast-importer");
  let cc_db := commands_json_load args in
  cc_db ← (if negb (String.eqb (arg_filter args) "")
           then filter_cc_db args cc_db
           else ret cc_db);
  ensure_code_compiled_with_clang cc_db;;
  include_dirs ← get_system_include_dirs;
  let transpile_single := transpile_single args ast_extr ast_impo include_dirs in
  if decide (arg_jobs args = 1) then
    for_each cc_db transpile_single
  else
    with_thread_pool (arg_jobs args)
      (for_each cc_db (fun cmd => submit (transpile_single cmd);; ret tt)).

Definition main (args : transpile_args) : M unit :=
  transpile_files args;;
  ret tt.

End Transpile.

(** ** Counting launched programs *)

(** How many times [cmd] was launched. *)
Definition launches (cmd : string) (st : state) : nat :=
  length (List.filter (fun e : string * list string => String.eqb e.1 cmd)
                      (launched st)).

(** The host never removes the file [path]: a launched program leaves
    it in place. *)
Definition keeps_file (w : World) (path : string) : Prop :=
  forall cmd args files,
    is_Some (files !! path) ->
    is_Some (fs_after (exec w cmd args files) !! path).

(** A computation that leaves the file [path] in place. *)
Definition preserves {A} (path : string) (m : M A) : Prop :=
  forall st, is_Some (fs st !! path) -> is_Some (fs (m st).2 !! path).

(** ** Concrete hosts

    Small hosts on which the scripts are run in the examples below. *)

Module Scenario.

Definition nth_arg (n : nat) (args : list string) : string :=
  default EmptyString (args !! n).

Definition ROOT : string := "/c2rust".
Definition AST_EXTRACTOR : string := "/c2rust/llvm.build/bin/ast-extractor".
Definition AST_IMPORTER : string :=
  "/c2rust/ast-importer/target/debug/ast-importer".

(** A host with every tool installed.  [curl] writes its [-o] file;
    [gpg] exits with [gpg_status] and prints [gpg_says]; [readelf]
    prints the content of the object; [clang] prints one include
    directory; the extractor writes [<source>.cbor] next to the
    source, except for the source [bad_source], on which it exits
    with status 1; the importer exits with status 1 on the artifact
    [bad_artifact] and with 0 on the others. *)
Definition host_exec (gpg_status : Z) (gpg_says bad_source bad_artifact : string)
    (cmd : string) (args : list string) (files : gmap string string)
    : proc_result :=
  if String.eqb cmd "curl" then
    ProcResult 0 "" "" (<[nth_arg 2 args := "archive"]> files)
  else if String.eqb cmd "gpg" then
    if String.eqb (nth_arg 0 args) "--verify"
    then ProcResult gpg_status "" gpg_says files
    else ProcResult 0 "" "" files
  else if String.eqb cmd "readelf" then
    ProcResult 0 (default "" (files !! nth_arg 2 args)) "" files
  else if String.eqb cmd "clang" then
    ProcResult 0 "" (" /usr/include" +:+ NL) files
  else if String.eqb cmd AST_EXTRACTOR then
    if String.eqb (nth_arg 2 args) bad_source
    then ProcResult 1 "" "extraction failed" files
    else ProcResult 0 "" "" (<[nth_arg 2 args +:+ ".cbor" := "ast"]> files)
  else if String.eqb cmd AST_IMPORTER then
    if String.eqb (nth_arg 0 args) bad_artifact
    then ProcResult 1 "" "import failed" files
    else ProcResult 0 "" "" files
  else ProcResult 0 "" "" files.

Definition host (gpg_status : Z) (gpg_says bad_source bad_artifact : string)
    : World :=
  {| which := fun _ => true;
     exec := host_exec gpg_status gpg_says bad_source bad_artifact;
     json_dumps := fun _ => "{}";
     str_cmd := fun cmd args => Str.join " " (cmd :: args);
     strerror := fun _ => "Operation not permitted";
     signal_name := fun n => if decide (n = 11) then Some "SIGSEGV" else None |}.

(** The host on which every tool succeeds. *)
Definition good_host : World :=
  host 0 ("gpg: " +:+ expected_signature) "" "".

(** The host on which the extractor fails on [/p/b.c]. *)
Definition extraction_fails_on_b : World :=
  host 0 ("gpg: " +:+ expected_signature) "/p/b.c" "".

(** The host on which the importer fails on [/p/a.c.cbor]. *)
Definition import_fails_on_a : World :=
  host 0 ("gpg: " +:+ expected_signature) "" "/p/a.c.cbor".

Definition files (l : list (string * string)) : state :=
  {| fs := list_to_map l; launched := [] |}.

(** A compilation database of three C files in [/p]. *)
Definition entry (name : string) : compile_cmd :=
  {| arguments := None;
     command := Some ("cc -c " +:+ name);
     directory := Some "/p";
     file := Some name |}.

Definition three_entries : list compile_cmd :=
  [entry "a.c"; entry "b.c"; entry "c.c"].

Definition three_sources : state :=
  files [("/p/a.c", "int a;"); ("/p/b.c", "int b;"); ("/p/c.c", "int c;")].

Definition transpile (filter : string) (jobs : Z) : transpile_args :=
  {| commands_json_name := "/p/compile_commands.json";
     commands_json_load := three_entries;
     arg_import_only := false;
     arg_filter := filter;
     arg_jobs := jobs |}.

(** An entry whose command ends in its [-o] flag. *)
Definition output_flag_last : compile_cmd :=
  {| arguments := None;
     command := Some "cc -c foo.c -o build/out.o";
     directory := Some "/d";
     file := Some "foo.c" |}.

(** The same command with the [-o] flag before the source. *)
Definition output_flag_first : compile_cmd :=
  {| arguments := None;
     command := Some "cc -o build/out.o -c foo.c";
     directory := Some "/d";
     file := Some "foo.c" |}.

(** An entry without [-o]. *)
Definition no_output_flag : compile_cmd :=
  {| arguments := Some ["cc"; "-c"; "foo.c"];
     command := None;
     directory := Some "/d";
     file := Some "foo.c" |}.

(** An entry without [-o] in a directory whose name contains [.c]. *)
Definition no_output_flag_dotted_dir : compile_cmd :=
  {| arguments := Some ["cc"; "-c"; "foo.c"];
     command := None;
     directory := Some "/d/my.code";
     file := Some "foo.c" |}.

(** Two located objects, the first built by clang, the second not. *)
Definition two_objects_db : list compile_cmd :=
  [ {| arguments := None; command := Some "cc -c a.c";
       directory := Some "/d"; file := Some "a.c" |};
    {| arguments := None; command := Some "cc -c b.c";
       directory := Some "/d"; file := Some "b.c" |} ].

Definition two_objects : state :=
  files [("/d/a.o", "clang version 4.0.1"); ("/d/b.o", "GCC: (GNU) 7.2.0")].

(** A generated [build.ninja] that records the flavor [Release]. *)
Definition BUILD_NINJA : string := "/c2rust/llvm.build/build.ninja".

Definition release_ninja : string :=
  "# CMAKE generated file: DO NOT EDIT!" +:+ NL +:+
  "# Generated by Ninja Generator" +:+ NL +:+ NL +:+
  "# Configuration: Release" +:+ NL.

Definition configured_release : state := files [(BUILD_NINJA, release_ninja)].

Definition empty_ninja : state := files [(BUILD_NINJA, "")].

(** A cache that already holds the second archive. *)
Definition CFE_ARCHIVE : string := "/c2rust/dependencies/cfe-4.0.1.src.tar.xz".

Definition cached_cfe : state := files [(CFE_ARCHIVE, "cached")].

End Scenario.

(** ** The two runs of [gpg] in [check_sig] *)

(** What [gpg --keyserver ... --recv-key ...] leaves when launched in
    the state [st]. *)
Definition gpg_recv_key (w : World) (st : state) : proc_result :=
  exec w "gpg" ["--keyserver"; KEYSERVER; "--recv-key"; LLVM_PUBKEY] (fs st).

(** What [gpg --verify asigfile afile] leaves when launched after it. *)
Definition gpg_verify (w : World) (afile asigfile : string) (st : state)
    : proc_result :=
  exec w "gpg" ["--verify"; asigfile; afile] (fs_after (gpg_recv_key w st)).

(** ** Tactics for the monad *)

Ltac run_m :=
  unfold mbind, M_bind, mret, M_ret, ret, die, raise, assert, isfile,
    readlines, append_file, try_except_process_error; cbn.

Ltac unfold_m :=
  unfold ret, die, raise, assert, isfile, readlines, append_file,
    try_except_process_error, mbind, M_bind, mret, M_ret; cbv beta iota.

(** ** More of the scripts *)

(** Every character of [s] is in the class [p]. *)
Fixpoint all_chars (p : ascii -> bool) (s : string) : bool :=
  match s with
  | EmptyString => true
  | String c s' => p c && all_chars p s'
  end.

Definition not_space (c : ascii) : bool := negb (Str.is_space c).

(** [r'^\s*prefix\s*=\s*([^\s]+)'] of [update_cbor_prefix] *)
Definition prefix_assignment : Re.pattern :=
  [Re.Star Str.is_space] ++ Re.lits "prefix" ++
  [Re.Star Str.is_space; Re.Lit "="; Re.Star Str.is_space;
   Re.GroupOpen; Re.Plus not_space; Re.GroupClose].

(** [open(path, 'w').writelines(text)] *)
Definition write_file (path text : string) : M unit :=
  fun st =>
    (Ok tt, {| fs := <[path := text]> (fs st); launched := launched st |}).

Section MoreScripts.

Variable w : World.
Variable ROOT_DIR : string.

(** The loop of [update_cbor_prefix] over the lines of the makefile,
    started with a given [writeback]: the list [lines] it builds and
    the last value of [writeback]. *)
Fixpoint update_cbor_prefix_loop (all_lines : list string) (writeback : bool)
    : list string * bool :=
  match all_lines with
  | [] => ([], writeback)
  | line :: rest =>
      match Re.rmatch prefix_assignment line with
      | Some prefix =>
          let writeback := negb (String.eqb prefix (CBOR_PREFIX ROOT_DIR)) in
          let '(lines, writeback) := update_cbor_prefix_loop rest writeback in
          (("prefix = " +:+ CBOR_PREFIX ROOT_DIR +:+ Str.linesep) :: lines, writeback)
      | None =>
          let '(lines, writeback) := update_cbor_prefix_loop rest writeback in
          (line :: lines, writeback)
      end
  end.

Definition update_cbor_prefix (makefile : string) : M unit :=
  present ← isfile makefile;
  (if negb present then die ("not found: " +:+ makefile) ENOENT else ret tt);;
  all_lines ← readlines makefile;
  let '(lines, writeback) := update_cbor_prefix_loop all_lines false in
  if writeback : bool then write_file makefile (Str.join "" lines)
  else ret tt.

(** The statements of [transpile_files] before its loop: the two
    tools, the filtered database, the compiler gate and the include
    directories. *)
Definition transpile_prologue (args : transpile_args)
    : M (string * string * list compile_cmd * list string) :=
  ast_extr ← get_cmd_or_die w (Path.join (LLVM_BIN ROOT_DIR) "ast-extractor");
  ast_impo ← get_cmd_or_die w
               (Path.join ROOT_DIR "ast-importer/target/debug/ast-importer");
  let cc_db := commands_json_load args in
  cc_db ← (if negb (String.eqb (arg_filter args) "")
           then filter_cc_db args cc_db
           else ret cc_db);
  ensure_code_compiled_with_clang w cc_db;;
  include_dirs ← get_system_include_dirs w;
  ret (ast_extr, ast_impo, cc_db, include_dirs).

(** The loop of [transpile_files], sequential or through the pool. *)
Definition transpile_jobs (args : transpile_args)
    (p : string * string * list compile_cmd * list string) : M unit :=
  let '(ast_extr, ast_impo, cc_db, include_dirs) := p in
  let transpile_single := transpile_single w args ast_extr ast_impo include_dirs in
  if decide (arg_jobs args = 1) then
    for_each cc_db transpile_single
  else
    with_thread_pool (arg_jobs args)
      (for_each cc_db (fun cmd => submit (transpile_single cmd);; ret tt)).

(** [on_mac()], given the text of [platform.platform()] *)
Definition on_mac (platform : string) : bool := Str.contains "Darwin" platform.

(** [test_ast_extractor(cc_db_path)], given the text of
    [platform.platform()] and the array that [json.load] reads from
    the file at [cc_db_path]. *)
Definition test_ast_extractor (platform cc_db_path : string)
    (cc_db : list compile_cmd) : M unit :=
  assert (negb (on_mac platform)) "sanity testing requires linux host";;
  let ast_extr := Path.join (LLVM_BIN ROOT_DIR) "ast-extractor" in
  present ← isfile ast_extr;
  (if negb present
   then die ("ast-extractor not found in " +:+ LLVM_BIN ROOT_DIR) 1
   else ret tt);;
  ast_extr ← get_cmd_or_die w ast_extr;
  include_dirs ← get_system_include_dirs w;
  opened ← isfile cc_db_path;
  (if negb opened then raise (FileNotFoundError cc_db_path) else ret tt);;
  cbor_files ← map_m (extract_ast_from w ast_extr cc_db_path include_dirs) cc_db;
  ret tt.

End MoreScripts.

(** A line of a text file as [readlines] gives it: ended by its only
    line feed, without a carriage return. *)
Definition full_line (l : string) : Prop :=
  exists body, l = body +:+ NL /\ Str.no_newline body = true.

(** The last line of a file that does not end in a line feed. *)
Definition open_line (l : string) : Prop :=
  l <> "" /\ Str.no_newline l = true.

(** The lines of a text file as [readlines] gives them. *)
Fixpoint file_lines (ls : list string) : Prop :=
  match ls with
  | [] => True
  | [l] => full_line l \/ open_line l
  | l :: ls' => full_line l /\ file_lines ls'
  end.


(** A host with every tool installed, on which the tool [broken] exits
    with [status] and every other tool with 0, none of them writing
    anything. *)
Definition host_with_broken (broken : string) (status : Z) : World :=
  {| which := fun _ => true;
     exec := fun cmd _ files =>
               ProcResult (if String.eqb cmd broken then status else 0)
                          "" "" files;
     json_dumps := fun _ => "{}";
     str_cmd := fun cmd args => Str.join " " (cmd :: args);
     strerror := fun _ => "Operation not permitted";
     signal_name := fun n => if decide (n = 11) then Some "SIGSEGV" else None |}.

(** The entries [ensure_code_compiled_with_clang] keeps: those whose
    file name ends in [.c]. *)
Definition is_c_file (c : compile_cmd) : bool :=
  if file c is Some f then Str.endswith f ".c" else false.

(** On the host [readelf] writes nothing. *)
Definition readelf_reads_only (w : World) : Prop :=
  forall args files, fs_after (exec w "readelf" args files) = files.

(** What the loop of [update_cbor_prefix] puts in [lines] for one
    line of the makefile. *)
Definition rewritten_line (ROOT_DIR line : string) : string :=
  match Re.rmatch prefix_assignment line with
  | Some _ => "prefix = " +:+ CBOR_PREFIX ROOT_DIR +:+ Str.linesep
  | None => line
  end.

Definition not_cr (c : ascii) : bool := negb (Ascii.eqb c Str.CR).

(** The characters below 128. *)
Definition is_ascii (c : ascii) : bool := (nat_of_ascii c <? 128)%nat.

(** A text of characters below 128.  [open(path, "r")] decodes what it
    reads with the encoding of the locale, and the classes [\s] and
    [\w] of [re] go by Unicode.  Every encoding of a locale reads such
    a text as it is, and on it the two classes are [Str.is_space] and
    [Str.is_word]; bytes of 128 and more may fail to decode, or decode
    to characters that the model does not have.  What depends on the
    characters read from a file is therefore stated for texts of this
    kind. *)
Definition ascii_text (s : string) : bool := all_chars is_ascii s.

(** [line] is a configuration marker that records [flavor]: the
    character [#], blanks, [Configuration:], blanks, and then the word
    [flavor], which ends where [line] ends or where a character that
    is not of a word follows. *)
Definition records_flavor (line flavor : string) : Prop :=
  exists blanks1 blanks2 rest,
    line = "#" +:+ blanks1 +:+ "Configuration:" +:+ blanks2 +:+ flavor +:+ rest /\
    all_chars Str.is_space blanks1 = true /\
    all_chars Str.is_space blanks2 = true /\
    flavor <> "" /\
    all_chars Str.is_word flavor = true /\
    (rest = "" \/ exists c t, rest = String c t /\ Str.is_word c = false).

(** * Properties *)

(** ** Strings *)

Lemma append_nil_l (s : string) : "" +:+ s = s.
Proof. reflexivity. Qed.

Lemma append_cons (c : ascii) (s t : string) :
  String c s +:+ t = String c (s +:+ t).
Proof. reflexivity. Qed.

Lemma append_nil_r (s : string) : s +:+ "" = s.
Proof.
  induction s as [|c s IH]; [reflexivity|].
  now rewrite append_cons, IH.
Qed.

Lemma append_assoc (a b c : string) : (a +:+ b) +:+ c = a +:+ b +:+ c.
Proof.
  induction a as [|x a IH]; [reflexivity|].
  now rewrite !append_cons, IH.
Qed.

Lemma length_append (a b : string) :
  String.length (a +:+ b) = (String.length a + String.length b)%nat.
Proof.
  induction a as [|x a IH]; [reflexivity|].
  rewrite append_cons. simpl. now rewrite IH.
Qed.

Lemma append_inj_l (a b c : string) : a +:+ c = b +:+ c -> a = b.
Proof.
  intros H.
  assert (Hlen : String.length a = String.length b).
  { apply (f_equal String.length) in H.
    rewrite !length_append in H. lia. }
  revert b H Hlen.
  induction a as [|x a IH]; intros [|y b] H Hlen; simpl in Hlen;
    try discriminate; [reflexivity|].
  rewrite !append_cons in H. injection H as -> H.
  f_equal. apply IH; [assumption | lia].
Qed.












(** ** The monad *)

Lemma bind_ok {A B} (m : M A) (k : A -> M B) (st st' : state) (a : A) :
  m st = (Ok a, st') -> (m ≫= k) st = k a st'.
Proof. intros H. unfold mbind, M_bind. now rewrite H. Qed.

Lemma bind_die {A B} (m : M A) (k : A -> M B) (st st' : state) emsg ecode :
  m st = (Die emsg ecode, st') -> (m ≫= k) st = (Die emsg ecode, st').
Proof. intros H. unfold mbind, M_bind. now rewrite H. Qed.

Lemma bind_raise {A B} (m : M A) (k : A -> M B) (st st' : state) e :
  m st = (Raise e, st') -> (m ≫= k) st = (Raise e, st').
Proof. intros H. unfold mbind, M_bind. now rewrite H. Qed.

Lemma get_cmd_or_die_found (w : World) (cmd : string) :
  which w cmd = true -> get_cmd_or_die w cmd = ret cmd.
Proof. intros H. unfold get_cmd_or_die. now rewrite H. Qed.

Lemma for_each_app {A} (l1 l2 : list A) (body : A -> M unit) (st : state) :
  for_each (l1 ++ l2) body st = (for_each l1 body;; for_each l2 body) st.
Proof.
  revert st. induction l1 as [|x l1 IH]; intros st; [reflexivity|].
  cbn [app for_each]. unfold mbind, M_bind in *.
  destruct (body x st) as [[[]|emsg ecode|e] st']; try reflexivity.
  apply IH.
Qed.

(** ** [update_cmakelists] *)





(** ** [check_sig] *)

Lemma check_sig_eq (w : World) (afile asigfile : string) (st : state) :
  (check_sig w afile asigfile st).1 =
  if which w "gpg" then
    if decide (retcode (gpg_recv_key w st) = 0) then
      if decide (retcode (gpg_verify w afile asigfile st) ≠ 0) then
        Die ("gpg signature check failed: gpg exit code " +:+
             pretty (retcode (gpg_verify w afile asigfile st))) 1
      else if Str.contains expected_signature (stderr (gpg_verify w afile asigfile st))
      then Ok tt
      else Die "gpg signature check failed: expected signature not found" 1
    else Raise (ProcessExecutionError (retcode (gpg_recv_key w st))
                                      (stderr (gpg_recv_key w st)))
  else Die "gpg not in path" ENOENT.
Proof.
  unfold check_sig, get_cmd_or_die, call, run, popen. run_m.
  destruct (which w "gpg"); [|reflexivity]. cbn.
  fold (gpg_recv_key w st).
  destruct (decide (retcode (gpg_recv_key w st) = 0)); [|reflexivity]. cbn.
  fold (gpg_recv_key w st). fold (gpg_verify w afile asigfile st).
  destruct (decide (retcode (gpg_verify w afile asigfile st) ≠ 0));
    [reflexivity|]. cbn.
  now destruct (Str.contains expected_signature _).
Qed.



(** ** The download loop *)

Section Preservation.

Variable w : World.
Variable path : string.
Hypothesis Hkeeps : keeps_file w path.

Lemma preserves_ret {A} (a : A) : preserves path (ret a).
Proof. intros st H. exact H. Qed.

Lemma preserves_die {A} emsg ecode : preserves path (@die A emsg ecode).
Proof. intros st H. exact H. Qed.

Lemma preserves_raise {A} e : preserves path (@raise A e).
Proof. intros st H. exact H. Qed.

Lemma preserves_isfile p : preserves path (isfile p).
Proof. intros st H. exact H. Qed.

Lemma preserves_bind {A B} (m : M A) (k : A -> M B) :
  preserves path m -> (forall a, preserves path (k a)) ->
  preserves path (m ≫= k).
Proof.
  intros Hm Hk st H. specialize (Hm st H).
  unfold mbind, M_bind.
  destruct (m st) as [[a|emsg ecode|e] st']; cbn in *; try assumption.
  now apply Hk.
Qed.

Lemma preserves_popen cmd args : preserves path (popen w cmd args).
Proof. intros st H. cbn. now apply Hkeeps. Qed.

Lemma preserves_run expected cmd args : preserves path (run w expected cmd args).
Proof.
  unfold run. apply preserves_bind; [apply preserves_popen|].
  intros r. destruct expected as [e|]; [|apply preserves_ret].
  destruct (decide (r.1.1 = e)); [apply preserves_ret | apply preserves_raise].
Qed.

Lemma preserves_call cmd args : preserves path (call w cmd args).
Proof.
  unfold call. apply preserves_bind; [apply preserves_run|].
  intros r. apply preserves_ret.
Qed.

Lemma preserves_get_cmd_or_die cmd : preserves path (get_cmd_or_die w cmd).
Proof.
  unfold get_cmd_or_die.
  destruct (which w cmd); [apply preserves_ret | apply preserves_die].
Qed.

Lemma preserves_check_sig afile asigfile :
  preserves path (check_sig w afile asigfile).
Proof.
  unfold check_sig.
  apply preserves_bind; [apply preserves_get_cmd_or_die | intros gpg].
  apply preserves_bind; [apply preserves_call | intros _].
  apply preserves_bind; [apply preserves_run | intros [[rc out] err]].
  apply preserves_bind.
  - destruct (decide (rc ≠ 0)); [apply preserves_die | apply preserves_ret].
  - intros _. destruct (negb _); [apply preserves_die | apply preserves_ret].
Qed.

Lemma preserves_fetch_archive curl a : preserves path (fetch_archive w curl a).
Proof.
  destruct a as [[[aurl asig] afile] adir]. unfold fetch_archive.
  apply preserves_bind; [apply preserves_isfile | intros present].
  destruct (negb present); [|apply preserves_ret].
  apply preserves_bind; [apply preserves_call | intros _].
  apply preserves_bind; [apply preserves_isfile | intros sig_present].
  apply preserves_bind; [|intros _; apply preserves_check_sig].
  destruct (negb sig_present); [|apply preserves_ret].
  apply preserves_bind; [apply preserves_call | intros _; apply preserves_ret].
Qed.

Lemma preserves_fetch_archives curl archives :
  preserves path (fetch_archives w curl archives).
Proof.
  unfold fetch_archives.
  induction archives as [|a archives IH]; [apply preserves_ret|].
  cbn [for_each].
  apply preserves_bind; [apply preserves_fetch_archive | intros _; exact IH].
Qed.

End Preservation.

(** An archive that is in the cache makes its iteration do nothing. *)
Lemma fetch_archive_cached (w : World) (curl aurl asig afile adir : string)
    (st : state) :
  is_Some (fs st !! afile) ->
  fetch_archive w curl (aurl, asig, afile, adir) st = (Ok tt, st).
Proof.
  intros [text H]. unfold fetch_archive. run_m. now rewrite H.
Qed.

(** C10.  On a host that leaves the archive file in place, an archive
    that is already in the cache when the download loop starts takes no
    part in it: the loop ends with the same outcome, the same files and
    the same launched programs as the loop over the other archives, so
    nothing is downloaded and nothing is verified for it. *)
Theorem cached_archive_is_skipped (w : World) (curl : string)
    (before after : list (string * string * string * string))
    (aurl asig afile adir : string) (st : state) :
  keeps_file w afile ->
  is_Some (fs st !! afile) ->
  fetch_archives w curl (before ++ (aurl, asig, afile, adir) :: after) st =
  fetch_archives w curl (before ++ after) st.
Proof.
  intros Hkeeps Hcached. unfold fetch_archives.
  rewrite !for_each_app. unfold mbind, M_bind.
  pose proof (preserves_fetch_archives w afile Hkeeps curl before st Hcached) as Hstill.
  unfold fetch_archives in Hstill.
  destruct (for_each before (fetch_archive w curl) st) as [[[]|emsg ecode|e] st'];
    try reflexivity.
  cbn [for_each]. unfold mbind, M_bind.
  now rewrite (fetch_archive_cached w curl aurl asig afile adir st' Hstill).
Qed.

Lemma good_host_keeps_files (path : string) : keeps_file Scenario.good_host path.
Proof.
  intros cmd args files H. cbn. unfold Scenario.host_exec.
  repeat case_match; cbn; try assumption;
    (rewrite lookup_insert_is_Some'; right; assumption).
Qed.

(** With the second archive in the cache, the loop over the four LLVM
    archives is the loop over the other three. *)
Lemma cached_cfe_is_skipped :
  fetch_archives Scenario.good_host "curl" (llvm_archives Scenario.ROOT)
    Scenario.cached_cfe =
  fetch_archives Scenario.good_host "curl"
    (take 1 (llvm_archives Scenario.ROOT) ++ drop 2 (llvm_archives Scenario.ROOT))
    Scenario.cached_cfe.
Proof.
  apply (cached_archive_is_skipped Scenario.good_host "curl"
           (take 1 (llvm_archives Scenario.ROOT))
           (drop 2 (llvm_archives Scenario.ROOT))
           "http://releases.llvm.org/4.0.1/cfe-4.0.1.src.tar.xz"
           "http://releases.llvm.org/4.0.1/cfe-4.0.1.src.tar.xz.sig"
           Scenario.CFE_ARCHIVE "cfe-4.0.1.src" Scenario.cached_cfe).
  - apply good_host_keeps_files.
  - vm_compute. eexists. reflexivity.
Defined.

(** ** The build configuration *)

Lemma get_ninja_build_type_state (ninja_build_file : string) (st : state) :
  (get_ninja_build_type ninja_build_file st).2 = st.
Proof.
  unfold get_ninja_build_type. unfold_m.
  destruct (fs st !! ninja_build_file) as [text|]; [|reflexivity].
  destruct (Str.splitlines_keepends _) as [|line0 lines]; [reflexivity|].
  destruct (negb _); [reflexivity|].
  now destruct (first_match _ _).
Qed.

Lemma launches_launch (cmd cmd' : string) (args : list string)
    (files : gmap string string) (st : state) :
  launches cmd {| fs := files; launched := launched st ++ [(cmd', args)] |} =
  (launches cmd st + if String.eqb cmd' cmd then 1 else 0)%nat.
Proof.
  unfold launches. cbn [launched].
  rewrite List.filter_app, length_app. cbn.
  now destruct (String.eqb cmd' cmd).
Qed.





(** A [build.ninja] with at least one line that is not well formed
    ends in [die]: with a first line other than the generator's, or
    without a line that records the configuration. *)
Lemma malformed_build_file_dies (ninja_build_file text line0 : string)
    (lines : list string) (st : state) :
  fs st !! ninja_build_file = Some text ->
  Str.splitlines_keepends (Str.universal_newlines false text) = line0 :: lines ->
  (line0 <> "# CMAKE generated file: DO NOT EDIT!" +:+ Str.linesep ->
   get_ninja_build_type ninja_build_file st =
   (Die ("unexpected content in ninja.build: " +:+ ninja_build_file) 1, st)) /\
  (line0 = "# CMAKE generated file: DO NOT EDIT!" +:+ Str.linesep ->
   first_match Re.configuration (line0 :: lines) = None ->
   get_ninja_build_type ninja_build_file st =
   (Die ("missing content in ninja.build: " +:+ ninja_build_file) 1, st)).
Proof.
  intros Hfile Hlines. unfold get_ninja_build_type. unfold_m.
  rewrite Hfile, Hlines. split.
  - intros Hne. apply String.eqb_neq in Hne. now rewrite Hne.
  - intros -> Hnone. rewrite String.eqb_refl. cbn [negb]. now rewrite Hnone.
Qed.

(** An empty [build.ninja] has no first line to look at. *)
Lemma empty_build_file_index_error (ninja_build_file : string) (st : state) :
  fs st !! ninja_build_file = Some "" ->
  get_ninja_build_type ninja_build_file st = (Raise IndexError, st).
Proof.
  intros Hfile. unfold get_ninja_build_type. unfold_m. now rewrite Hfile.
Qed.

(** C8.  On an existing but empty [build.ninja], [get_ninja_build_type]
    does not reach [die]: reading [lines[0]] raises [IndexError], and
    the exception ends [configure_and_build_llvm] before any tool is
    launched. *)
Theorem empty_build_file_raises :
  (get_ninja_build_type Scenario.BUILD_NINJA Scenario.empty_ninja).1 =
  Raise IndexError /\
  (configure_and_build_llvm Scenario.good_host Scenario.ROOT
     (BuildArgs false false false) Scenario.empty_ninja).1 = Raise IndexError /\
  launched (configure_and_build_llvm Scenario.good_host Scenario.ROOT
              (BuildArgs false false false) Scenario.empty_ninja).2 = [].
Proof. repeat split; vm_compute; reflexivity. Qed.

(** ** Locating objects and checking their compiler *)

(** C4.  For the command [cc -c foo.c -o build/out.o] in [/d], whose
    [-o] flag comes last, [try_locate_elf_object] does not look at
    [/d/build/out.o]: it finds nothing when that file is the only one,
    and answers [/d/foo.o] when that file exists too.  The same flag
    placed before the source is recognised.  Without [-o], the source
    [foo.c] in the directory [/d/my.code] is looked for at
    [/d/my.oode/foo.o], not at [/d/my.code/foo.o]. *)
Theorem output_flag_last_is_missed :
  (try_locate_elf_object Scenario.good_host Scenario.output_flag_last
     (Scenario.files [("/d/build/out.o", "ELF")])).1 = Ok None /\
  (try_locate_elf_object Scenario.good_host Scenario.output_flag_last
     (Scenario.files [("/d/build/out.o", "ELF"); ("/d/foo.o", "ELF")])).1 =
  Ok (Some "/d/foo.o") /\
  (try_locate_elf_object Scenario.good_host Scenario.output_flag_first
     (Scenario.files [("/d/build/out.o", "ELF"); ("/d/foo.o", "ELF")])).1 =
  Ok (Some "/d/build/out.o") /\
  (try_locate_elf_object Scenario.good_host Scenario.no_output_flag_dotted_dir
     (Scenario.files [("/d/my.code/foo.o", "ELF")])).1 = Ok None /\
  (try_locate_elf_object Scenario.good_host Scenario.no_output_flag_dotted_dir
     (Scenario.files [("/d/my.code/foo.o", "ELF"); ("/d/my.oode/foo.o", "ELF")])).1 =
  Ok (Some "/d/my.oode/foo.o").
Proof. repeat split; vm_compute; reflexivity. Qed.

(** Without [-o], the object of [foo.c] in [/d] is [/d/foo.o]. *)
Lemma no_output_flag_replaces_suffix :
  (try_locate_elf_object Scenario.good_host Scenario.no_output_flag
     (Scenario.files [("/d/foo.o", "ELF")])).1 = Ok (Some "/d/foo.o").
Proof. vm_compute. reflexivity. Qed.

(** C5.  With [/d/a.o] built by clang and [/d/b.o] not,
    [ensure_code_compiled_with_clang] dies, and its message lists
    [/d/a.o] as well as [/d/b.o]. *)
Theorem diagnostic_lists_clang_objects_too :
  (ensure_code_compiled_with_clang Scenario.good_host Scenario.two_objects_db
     Scenario.two_objects).1 =
  Die ("some ELF objects were not compiled with clang:" +:+ NL +:+
       "/d/a.o" +:+ NL +:+ "/d/b.o") 1.
Proof. vm_compute. reflexivity. Qed.

(** ** The file filter *)

(** On a database that is not empty the comprehension of the filter
    raises [NameError] at its first element. *)
Lemma filter_cc_db_name_error (args : transpile_args) (c : compile_cmd)
    (cc_db : list compile_cmd) (st : state) :
  filter_cc_db args (c :: cc_db) st = (Raise (NameError "f"), st).
Proof. reflexivity. Qed.

(** C2.  With the filter [a] and the three entries [a.c], [b.c] and
    [c.c], [transpile_files] ends in [NameError] before any program is
    launched; the interpreter exits with status 1. *)
Theorem filter_raises_name_error :
  (transpile_files Scenario.good_host Scenario.ROOT
     (Scenario.transpile "a" 1) Scenario.three_sources).1 =
  Raise (NameError "f") /\
  launched (transpile_files Scenario.good_host Scenario.ROOT
              (Scenario.transpile "a" 1) Scenario.three_sources).2 = [] /\
  exit_status (main Scenario.good_host Scenario.ROOT
                 (Scenario.transpile "a" 1) Scenario.three_sources).1 = 1.
Proof. repeat split; vm_compute; reflexivity. Qed.

(** ** The job scheduler *)

(** Jobs handed to the thread pool never end the loop that submits
    them, whatever ends the jobs themselves. *)
Lemma submit_returns (job : M unit) (st : state) :
  (submit job;; ret tt) st = (Ok tt, (job st).2).
Proof. unfold submit. unfold_m. now destruct (job st). Qed.

Lemma submitted_jobs_return {A} (job : A -> M unit) (l : list A) (st : state) :
  (for_each l (fun x => submit (job x);; ret tt) st).1 = Ok tt.
Proof.
  revert st. induction l as [|x l IH]; intros st; [reflexivity|].
  cbn [for_each].
  rewrite (bind_ok _ _ st _ tt (submit_returns (job x) st)). apply IH.
Qed.

(** In the sequential loop the first job that does not return ends
    the loop. *)
Lemma for_each_stops {A} (job : A -> M unit) (x : A) (l : list A) (st : state) :
  (job x st).1 <> Ok tt ->
  for_each (x :: l) job st = job x st.
Proof.
  intros H. cbn [for_each]. unfold_m.
  destruct (job x st) as [[[]|emsg ecode|e] st']; cbn [fst] in H;
    [congruence | reflexivity | reflexivity].
Qed.

(** C1.  Three entries, three workers, and an extractor that fails on
    [/p/b.c]: the job of [b.c] dies, yet [main] returns and the
    interpreter exits with status 0, after two imports only and without
    the artifact [/p/b.c.cbor].  Run with one job, the same database
    ends the process with status 1. *)
Theorem pool_hides_failed_job :
  (main Scenario.extraction_fails_on_b Scenario.ROOT
     (Scenario.transpile "" 3) Scenario.three_sources).1 = Ok tt /\
  exit_status
    (main Scenario.extraction_fails_on_b Scenario.ROOT
       (Scenario.transpile "" 3) Scenario.three_sources).1 = 0 /\
  launches Scenario.AST_IMPORTER
    (main Scenario.extraction_fails_on_b Scenario.ROOT
       (Scenario.transpile "" 3) Scenario.three_sources).2 = 2%nat /\
  fs (main Scenario.extraction_fails_on_b Scenario.ROOT
        (Scenario.transpile "" 3) Scenario.three_sources).2
    !! "/p/b.c.cbor" = None /\
  exit_status
    (main Scenario.extraction_fails_on_b Scenario.ROOT
       (Scenario.transpile "" 1) Scenario.three_sources).1 = 1.
Proof. repeat split; vm_compute; reflexivity. Qed.

(** On the host where every tool succeeds the same run, with three
    workers or with one, makes three artifacts and three imports. *)
Lemma three_entries_three_imports (jobs : Z) :
  jobs = 1 \/ jobs = 3 ->
  let done := main Scenario.good_host Scenario.ROOT
                (Scenario.transpile "" jobs) Scenario.three_sources in
  done.1 = Ok tt /\
  launches Scenario.AST_EXTRACTOR done.2 = 3%nat /\
  launches Scenario.AST_IMPORTER done.2 = 3%nat /\
  is_Some (fs done.2 !! "/p/a.c.cbor") /\
  is_Some (fs done.2 !! "/p/b.c.cbor") /\
  is_Some (fs done.2 !! "/p/c.c.cbor").
Proof.
  intros [-> | ->]; vm_compute; repeat split; eexists; reflexivity.
Qed.

(** ** The import step *)

Lemma invoke_quietly_eq (w : World) (cmd : string) (args : list string)
    (st : state) :
  invoke_quietly w cmd args st =
  let r := exec w cmd args (fs st) in
  let st' := {| fs := fs_after r; launched := launched st ++ [(cmd, args)] |} in
  if decide (retcode r = 0) then (Ok (retcode r, stdout r, stderr r), st')
  else (Die ("cmd exited with code " +:+ pretty (retcode r) +:+ ": " +:+
             str_cmd w cmd args) (retcode r), st').
Proof.
  unfold invoke_quietly, _invoke, run, popen. unfold_m. cbn [fst snd].
  now destruct (decide (retcode (exec w cmd args (fs st)) = 0)).
Qed.

(** C3, as the code has it.  Once the artifact of an entry is there,
    [transpile_single] returns when the importer exits with status 0;
    with any other status it dies with that status as exit code, and
    the sequential loop over the entries ends there with the same
    outcome. *)
Theorem import_status_is_checked (w : World) (args : transpile_args)
    (ast_extr ast_impo : string) (include_dirs : list string)
    (cmd : compile_cmd) (rest : list compile_cmd)
    (st st1 : state) (cbor_file : string) :
  cbor_file_of w args ast_extr include_dirs cmd st = (Ok cbor_file, st1) ->
  is_Some (fs st1 !! cbor_file) ->
  let imported := exec w ast_impo [cbor_file] (fs st1) in
  let job := transpile_single w args ast_extr ast_impo include_dirs in
  (retcode imported = 0 -> (job cmd st).1 = Ok tt) /\
  (retcode imported <> 0 ->
   (job cmd st).1 =
   Die ("cmd exited with code " +:+ pretty (retcode imported) +:+ ": " +:+
        str_cmd w ast_impo [cbor_file]) (retcode imported) /\
   (for_each (cmd :: rest) job st).1 = (job cmd st).1).
Proof.
  intros Hcbor [text Hfile]. cbv zeta.
  assert (Hjob : transpile_single w args ast_extr ast_impo include_dirs cmd st =
                 match invoke_quietly w ast_impo [cbor_file] st1 with
                 | (Ok _, st2) => (Ok tt, st2)
                 | (Die emsg ecode, st2) => (Die emsg ecode, st2)
                 | (Raise e, st2) => (Raise e, st2)
                 end).
  { unfold transpile_single.
    rewrite (bind_ok _ _ st st1 cbor_file Hcbor).
    unfold isfile, assert. unfold_m. rewrite Hfile. cbv beta iota.
    now destruct (invoke_quietly w ast_impo [cbor_file] st1)
      as [[[[rc out] err]|emsg ecode|e] st2]. }
  rewrite Hjob, invoke_quietly_eq. cbv zeta.
  destruct (decide (retcode (exec w ast_impo [cbor_file] (fs st1)) = 0)) as [H0|H0].
  - split; [reflexivity | contradiction].
  - split; [contradiction|]. intros _. split; [reflexivity|].
    rewrite for_each_stops; rewrite Hjob, invoke_quietly_eq; cbv zeta;
      destruct (decide _); try contradiction; [reflexivity | discriminate].
Qed.

(** The importer exits with status 1 on the first artifact: the job of
    [a.c] dies with exit code 1 and the sequential loop ends there. *)
Lemma failed_import_ends_job :
  (transpile_single Scenario.import_fails_on_a (Scenario.transpile "" 1)
     Scenario.AST_EXTRACTOR Scenario.AST_IMPORTER ["/usr/include"]
     (Scenario.entry "a.c") Scenario.three_sources).1 =
  Die "cmd exited with code 1: /c2rust/ast-importer/target/debug/ast-importer /p/a.c.cbor" 1 /\
  (for_each Scenario.three_entries
     (transpile_single Scenario.import_fails_on_a (Scenario.transpile "" 1)
        Scenario.AST_EXTRACTOR Scenario.AST_IMPORTER ["/usr/include"])
     Scenario.three_sources).1 =
  (transpile_single Scenario.import_fails_on_a (Scenario.transpile "" 1)
     Scenario.AST_EXTRACTOR Scenario.AST_IMPORTER ["/usr/include"]
     (Scenario.entry "a.c") Scenario.three_sources).1.
Proof.
  refine (proj2 (import_status_is_checked Scenario.import_fails_on_a
                   (Scenario.transpile "" 1)
                   Scenario.AST_EXTRACTOR Scenario.AST_IMPORTER ["/usr/include"]
                   (Scenario.entry "a.c")
                   [Scenario.entry "b.c"; Scenario.entry "c.c"]
                   Scenario.three_sources _ "/p/a.c.cbor" _ _) _).
  - vm_compute. reflexivity.
  - vm_compute. eexists. reflexivity.
  - vm_compute. discriminate.
Defined.

(** With one job, an importer that exits with status 1 on the first
    artifact makes the whole run fail with that status, after a single
    import; on the host where the importer succeeds the same run
    returns. *)
Lemma failed_import_fails_sequential_run :
  (main Scenario.good_host Scenario.ROOT
     (Scenario.transpile "" 1) Scenario.three_sources).1 = Ok tt /\
  retcode (exec Scenario.import_fails_on_a Scenario.AST_IMPORTER
             ["/p/a.c.cbor"] ∅) = 1 /\
  (main Scenario.import_fails_on_a Scenario.ROOT
     (Scenario.transpile "" 1) Scenario.three_sources).1 =
  Die "cmd exited with code 1: /c2rust/ast-importer/target/debug/ast-importer /p/a.c.cbor" 1 /\
  exit_status
    (main Scenario.import_fails_on_a Scenario.ROOT
       (Scenario.transpile "" 1) Scenario.three_sources).1 = 1 /\
  launches Scenario.AST_IMPORTER
    (main Scenario.import_fails_on_a Scenario.ROOT
       (Scenario.transpile "" 1) Scenario.three_sources).2 = 1%nat.
Proof. repeat split; vm_compute; reflexivity. Qed.

(** * Further properties of the scripts *)

(** ** The matcher *)

Lemma all_chars_append (p : ascii -> bool) (a b : string) :
  all_chars p (a +:+ b) = all_chars p a && all_chars p b.
Proof.
  induction a as [|c a IH]; [reflexivity|].
  rewrite append_cons. simpl. now rewrite IH, andb_assoc.
Qed.

(** A greedy repetition that succeeds has taken a run of characters
    of its class, not empty, and left the rest to its continuation. *)
Lemma greedy_inv (p : ascii -> bool) (k : string -> option string)
    (s r : string) :
  Re.greedy p k s = Some r ->
  exists taken rest,
    s = taken +:+ rest /\ taken <> "" /\ all_chars p taken = true /\
    k rest = Some r.
Proof.
  revert r. induction s as [|c s IH]; intros r H; [discriminate|].
  simpl in H. destruct (p c) eqn:Hc; [|discriminate].
  destruct (Re.greedy p k s) as [r'|] eqn:Hdeep.
  - injection H as <-. destruct (IH r' eq_refl) as (taken & rest & -> & _ & Hall & Hk).
    exists (String c taken), rest. repeat split; [discriminate | | assumption].
    simpl. now rewrite Hc, Hall.
  - exists (String c ""), s. repeat split; [discriminate | | assumption].
    simpl. now rewrite Hc.
Qed.

(** A greedy repetition in front of the longest run of its class
    gives what its continuation gives after that run, when this is a
    match. *)
Lemma greedy_longest (p : ascii -> bool) (k : string -> option string)
    (taken rest r : string) :
  taken <> "" ->
  all_chars p taken = true ->
  Re.greedy p k rest = None ->
  k rest = Some r ->
  Re.greedy p k (taken +:+ rest) = Some r.
Proof.
  intros Hne Hall Hstop Hk. induction taken as [|c taken IH]; [congruence|].
  simpl in Hall. apply andb_prop in Hall as [Hc Hall].
  rewrite append_cons. simpl. rewrite Hc.
  destruct taken as [|d taken].
  - rewrite append_nil_l, Hstop. exact Hk.
  - now rewrite IH.
Qed.

(** Every text is a run of a class followed by a text that is empty
    or starts outside the class. *)
Lemma longest_run (p : ascii -> bool) (s : string) :
  exists taken rest,
    s = taken +:+ rest /\ all_chars p taken = true /\
    (rest = "" \/ exists c t, rest = String c t /\ p c = false).
Proof.
  induction s as [|c s (taken & rest & -> & Hall & Hrest)].
  - exists "", "". auto.
  - destruct (p c) eqn:Hc.
    + exists (String c taken), rest. repeat split; try assumption.
      simpl. now rewrite Hc, Hall.
    + exists "", (String c (taken +:+ rest)). repeat split. right. eauto.
Qed.

Lemma greedy_stop (p : ascii -> bool) (k : string -> option string) (rest : string) :
  rest = "" \/ (exists c t, rest = String c t /\ p c = false) ->
  Re.greedy p k rest = None.
Proof. intros [->|(c & t & -> & Hc)]; simpl; [|rewrite Hc]; reflexivity. Qed.

Lemma captured_append (taken rest : string) :
  Re.captured (taken +:+ rest) rest = taken.
Proof.
  unfold Re.captured. rewrite length_append.
  replace (String.length taken + String.length rest - String.length rest)%nat
    with (String.length taken) by lia.
  induction taken as [|c taken IH].
  - rewrite append_nil_l. now destruct rest.
  - rewrite append_cons. simpl. now rewrite IH.
Qed.

Lemma match_lit_inv (c : ascii) (r : Re.pattern) (from grp s g : string) :
  Re.match_here (Re.Lit c :: r) from grp s = Some g ->
  exists s', s = String c s' /\ Re.match_here r from grp s' = Some g.
Proof.
  destruct s as [|d s]; simpl; [discriminate|].
  destruct (Ascii.eqb_spec c d) as [->|]; [|discriminate]. eauto.
Qed.

Lemma match_cls_inv (p : ascii -> bool) (r : Re.pattern) (from grp s g : string) :
  Re.match_here (Re.Cls p :: r) from grp s = Some g ->
  exists d s', s = String d s' /\ p d = true /\
               Re.match_here r from grp s' = Some g.
Proof.
  destruct s as [|d s]; simpl; [discriminate|].
  destruct (p d) eqn:Hd; [|discriminate]. eauto.
Qed.

Lemma match_star_inv (p : ascii -> bool) (r : Re.pattern) (from grp s g : string) :
  Re.match_here (Re.Star p :: r) from grp s = Some g ->
  exists taken rest,
    s = taken +:+ rest /\ all_chars p taken = true /\
    Re.match_here r from grp rest = Some g.
Proof.
  simpl. destruct (Re.greedy p _ s) as [g'|] eqn:Hg.
  - intros [= <-]. apply greedy_inv in Hg as (taken & rest & ? & _ & ? & ?).
    eauto.
  - intros H. exists "", s. auto.
Qed.

Lemma match_plus_inv (p : ascii -> bool) (r : Re.pattern) (from grp s g : string) :
  Re.match_here (Re.Plus p :: r) from grp s = Some g ->
  exists taken rest,
    s = taken +:+ rest /\ taken <> "" /\ all_chars p taken = true /\
    Re.match_here r from grp rest = Some g.
Proof. simpl. apply greedy_inv. Qed.

Lemma search_inv (r : Re.pattern) (s g : string) :
  Re.search r s = Some g ->
  exists before at_match, s = before +:+ at_match /\ Re.rmatch r at_match = Some g.
Proof.
  induction s as [|c s IH]; simpl; destruct (Re.rmatch r _) as [g'|] eqn:Hm;
    try discriminate.
  - intros [= <-]. now exists "", "".
  - intros [= <-]. now exists "", (String c s).
  - intros H. destruct (IH H) as (before & at_match & -> & ?).
    now exists (String c before), at_match.
Qed.

Lemma endswith_append (a p : string) : Str.endswith (a +:+ p) p = true.
Proof.
  induction a as [|c a IH].
  - rewrite append_nil_l.
    destruct p; cbn [Str.endswith]; now rewrite String.eqb_refl.
  - rewrite append_cons. cbn [Str.endswith]. rewrite IH. apply orb_true_r.
Qed.

(** X1.  Whatever [-o] argument the pattern of [try_locate_elf_object]
    finds in a command ends in [.o], has at least one character before
    that suffix, and contains no NUL. *)
Theorem output_flag_group_ends_in_dot_o (command outfile : string) :
  Re.search Re.output_flag command = Some outfile ->
  exists stem,
    outfile = stem +:+ ".o" /\ stem <> "" /\
    all_chars Re.not_nul stem = true /\
    Str.endswith outfile ".o" = true.
Proof.
  intros H. apply search_inv in H as (before & s0 & _ & H).
  unfold Re.rmatch, Re.output_flag in H.
  apply match_cls_inv in H as (d & s1 & _ & _ & H).
  apply match_lit_inv in H as (s2 & _ & H).
  apply match_lit_inv in H as (s3 & _ & H).
  apply match_plus_inv in H as (blanks & s4 & _ & _ & _ & H).
  cbn [Re.match_here] in H. change (Re.greedy Re.not_nul ?k s4 = Some outfile)
    with (Re.match_here (Re.Plus Re.not_nul ::
            [Re.Lit "."; Re.Lit "o"; Re.GroupClose; Re.Cls Str.is_space])
            s4 "" s4 = Some outfile) in H.
  apply match_plus_inv in H as (stem & s5 & Hs4 & Hstem & Hall & H).
  apply match_lit_inv in H as (s6 & -> & H).
  apply match_lit_inv in H as (s7 & -> & H).
  cbn [Re.match_here] in H.
  destruct s7 as [|e s8]; [discriminate|].
  destruct (Str.is_space e); [|discriminate].
  injection H as <-. subst s4.
  replace (stem +:+ String "." (String "o" (String e s8)))
    with ((stem +:+ ".o") +:+ String e s8)
    by (now rewrite append_assoc).
  rewrite captured_append. exists stem. repeat split; try assumption.
  apply endswith_append.
Qed.

Lemma found_output_flag :
  Re.search Re.output_flag "cc -o build/out.o -c foo.c" = Some "build/out.o" /\
  exists stem,
    "build/out.o" = stem +:+ ".o" /\ stem <> "" /\
    all_chars Re.not_nul stem = true /\
    Str.endswith "build/out.o" ".o" = true.
Proof.
  split; [reflexivity|].
  apply (output_flag_group_ends_in_dot_o "cc -o build/out.o -c foo.c").
  reflexivity.
Defined.

(** ** Launching programs *)

(** X3.  [_invoke] launches its program once and never lets a
    [ProcessExecutionError] out: it returns only after an exit status
    of 0, with that status and the two outputs, and it dies with the
    exit status as exit code after any other status. *)
Theorem invoke_returns_only_status_zero (w : World) (console_output : bool)
    (cmd : string) (arguments : list string) (st : state) :
  let done := exec w cmd arguments (fs st) in
  (_invoke w console_output cmd arguments st).2 =
  {| fs := fs_after done; launched := launched st ++ [(cmd, arguments)] |} /\
  match (_invoke w console_output cmd arguments st).1 with
  | Ok (rc, out, err) =>
      rc = 0 /\ retcode done = 0 /\ out = stdout done /\ err = stderr done
  | Die _ ecode => ecode <> 0 /\ ecode = retcode done
  | Raise _ => False
  end.
Proof.
  cbv zeta. unfold _invoke, run, popen. unfold_m. cbn [fst snd].
  destruct (decide (retcode (exec w cmd arguments (fs st)) = 0)) as [H0|H0];
    cbn [fst snd]; auto.
Qed.

(** ** [check_sig] and the download loop *)

Lemma check_sig_full (w : World) (afile asigfile : string) (st : state) :
  which w "gpg" = true ->
  let st1 := {| fs := fs_after (gpg_recv_key w st);
                launched := launched st ++
                  [("gpg", ["--keyserver"; KEYSERVER; "--recv-key"; LLVM_PUBKEY])] |} in
  let st2 := {| fs := fs_after (gpg_verify w afile asigfile st);
                launched := launched st1 ++ [("gpg", ["--verify"; asigfile; afile])] |} in
  check_sig w afile asigfile st =
  if decide (retcode (gpg_recv_key w st) = 0)
  then ((check_sig w afile asigfile st).1, st2)
  else (Raise (ProcessExecutionError (retcode (gpg_recv_key w st))
                                     (stderr (gpg_recv_key w st))), st1).
Proof.
  intros Hgpg. cbv zeta.
  unfold check_sig, get_cmd_or_die, call, run, popen. rewrite Hgpg. unfold_m.
  cbn [fst snd]. fold (gpg_recv_key w st).
  destruct (decide (retcode (gpg_recv_key w st) = 0)); [|reflexivity].
  cbn [fs launched]. fold (gpg_recv_key w st). fold (gpg_verify w afile asigfile st).
  destruct (decide (retcode (gpg_verify w afile asigfile st) ≠ 0)); [reflexivity|].
  now destruct (negb _).
Qed.

(** X4.  When [gpg] cannot receive the signer's key, [check_sig] ends
    in the [ProcessExecutionError] of that first run, which nothing
    handles, and [gpg --verify] is never launched. *)
Theorem key_failure_skips_verification (w : World) (afile asigfile : string)
    (st : state) :
  which w "gpg" = true ->
  retcode (gpg_recv_key w st) <> 0 ->
  check_sig w afile asigfile st =
  (Raise (ProcessExecutionError (retcode (gpg_recv_key w st))
                                (stderr (gpg_recv_key w st))),
   {| fs := fs_after (gpg_recv_key w st);
      launched := launched st ++
        [("gpg", ["--keyserver"; KEYSERVER; "--recv-key"; LLVM_PUBKEY])] |}).
Proof.
  intros Hgpg Hkey. rewrite (check_sig_full w afile asigfile st Hgpg).
  now destruct (decide _).
Qed.

Lemma key_server_down :
  (check_sig (host_with_broken "gpg" 2) "llvm.tar.xz" "llvm.tar.xz.sig"
     (Scenario.files [])).1 = Raise (ProcessExecutionError 2 "") /\
  launched (check_sig (host_with_broken "gpg" 2) "llvm.tar.xz" "llvm.tar.xz.sig"
              (Scenario.files [])).2 =
  [("gpg", ["--keyserver"; "pgpkeys.mit.edu"; "--recv-key"; "8F0871F202119294"])].
Proof.
  rewrite (key_failure_skips_verification (host_with_broken "gpg" 2)
             "llvm.tar.xz" "llvm.tar.xz.sig" (Scenario.files []) eq_refl);
    [split; reflexivity | discriminate].
Defined.

Lemma call_eq (w : World) (cmd : string) (args : list string) (st : state) :
  call w cmd args st =
  let done := exec w cmd args (fs st) in
  let st' := {| fs := fs_after done; launched := launched st ++ [(cmd, args)] |} in
  if decide (retcode done = 0) then (Ok (stdout done), st')
  else (Raise (ProcessExecutionError (retcode done) (stderr done)), st').
Proof.
  unfold call, run, popen. unfold_m. cbn [fst snd].
  now destruct (decide (retcode (exec w cmd args (fs st)) = 0)).
Qed.

(** X5.  An archive that is not in the cache is accepted only after
    verification: when its iteration of the download loop returns,
    [curl] fetched the archive with status 0, the signature was
    fetched unless a file named like its URL exists, and the last two
    programs launched are [gpg --recv-key] and [gpg --verify] on the
    archive and its [.sig] file, the latter with status 0 and the
    expected signer in its error output. *)
Theorem fresh_archive_is_verified (w : World) (curl aurl asig afile adir : string)
    (st : state) :
  fs st !! afile = None ->
  (fetch_archive w curl (aurl, asig, afile, adir) st).1 = Ok tt ->
  let got := exec w curl [aurl; "-o"; afile] (fs st) in
  let st1 := {| fs := fs_after got;
                launched := launched st ++ [(curl, [aurl; "-o"; afile])] |} in
  let st2 :=
    if fs st1 !! asig is Some _ then st1
    else {| fs := fs_after (exec w curl [asig; "-o"; afile +:+ ".sig"] (fs st1));
            launched := launched st1 ++ [(curl, [asig; "-o"; afile +:+ ".sig"])] |} in
  retcode got = 0 /\
  launched (fetch_archive w curl (aurl, asig, afile, adir) st).2 =
  launched st2 ++
  [("gpg", ["--keyserver"; KEYSERVER; "--recv-key"; LLVM_PUBKEY]);
   ("gpg", ["--verify"; afile +:+ ".sig"; afile])] /\
  retcode (gpg_verify w afile (afile +:+ ".sig") st2) = 0 /\
  Str.contains expected_signature
    (stderr (gpg_verify w afile (afile +:+ ".sig") st2)) = true.
Proof.
  intros Hfile. cbv zeta. unfold fetch_archive.
  rewrite (bind_ok (isfile afile) _ st st false)
    by (unfold isfile; now rewrite Hfile).
  cbn [negb].
  pose proof (call_eq w curl [aurl; "-o"; afile] st) as Hget. cbv zeta in Hget.
  set (st1 := {| fs := fs_after (exec w curl [aurl; "-o"; afile] (fs st));
                 launched := launched st ++ [(curl, [aurl; "-o"; afile])] |}) in *.
  destruct (decide (retcode (exec w curl [aurl; "-o"; afile] (fs st)) = 0)) as [Hgot|];
    [|now rewrite (bind_raise _ _ _ _ _ Hget)].
  rewrite (bind_ok _ _ _ _ _ Hget).
  rewrite (bind_ok (isfile asig) _ st1 st1 _ eq_refl).
  set (st2 := if fs st1 !! asig is Some _ then st1 else _).
  assert (Hsigfile :
            ((if negb (if fs st1 !! asig is Some _ then true else false)
              then call w curl [asig; "-o"; afile +:+ ".sig"];; ret tt
              else ret tt) : M unit) st1 = (Ok tt, st2) \/
            exists e st', ((if negb (if fs st1 !! asig is Some _ then true else false)
                            then call w curl [asig; "-o"; afile +:+ ".sig"];; ret tt
                            else ret tt) : M unit) st1 = (Raise e, st')).
  { subst st2. destruct (fs st1 !! asig); cbn [negb]; [now left|].
    pose proof (call_eq w curl [asig; "-o"; afile +:+ ".sig"] st1) as Hs.
    cbv zeta in Hs. destruct (decide _).
    - left. now rewrite (bind_ok _ _ _ _ _ Hs).
    - right. eexists _, _. now rewrite (bind_raise _ _ _ _ _ Hs). }
  destruct Hsigfile as [Hs | (e & st' & Hs)];
    [|now rewrite (bind_raise _ _ _ _ _ Hs)].
  rewrite (bind_ok _ _ _ _ _ Hs). intros Hok.
  pose proof (check_sig_eq w afile (afile +:+ ".sig") st2) as Heq.
  rewrite Hok in Heq.
  destruct (which w "gpg") eqn:Hgpg; [|discriminate].
  rewrite (check_sig_full w afile (afile +:+ ".sig") st2 Hgpg).
  destruct (decide (retcode (gpg_recv_key w st2) = 0)); [|discriminate].
  destruct (decide (retcode (gpg_verify w afile (afile +:+ ".sig") st2) ≠ 0))
    as [|Hv]; [discriminate|].
  apply dec_stable in Hv.
  destruct (Str.contains expected_signature _) eqn:Hc; [|discriminate].
  cbn [snd launched]. rewrite <- app_assoc. auto.
Qed.

Lemma fresh_llvm_archive_is_verified :
  launched (fetch_archive Scenario.good_host "curl"
              ("http://releases.llvm.org/4.0.1/llvm-4.0.1.src.tar.xz",
               "http://releases.llvm.org/4.0.1/llvm-4.0.1.src.tar.xz.sig",
               "/c2rust/dependencies/llvm-4.0.1.src.tar.xz", "llvm-4.0.1.src")
              (Scenario.files [])).2 =
  [("curl", ["http://releases.llvm.org/4.0.1/llvm-4.0.1.src.tar.xz"; "-o";
             "/c2rust/dependencies/llvm-4.0.1.src.tar.xz"]);
   ("curl", ["http://releases.llvm.org/4.0.1/llvm-4.0.1.src.tar.xz.sig"; "-o";
             "/c2rust/dependencies/llvm-4.0.1.src.tar.xz.sig"]);
   ("gpg", ["--keyserver"; "pgpkeys.mit.edu"; "--recv-key"; "8F0871F202119294"]);
   ("gpg", ["--verify"; "/c2rust/dependencies/llvm-4.0.1.src.tar.xz.sig";
            "/c2rust/dependencies/llvm-4.0.1.src.tar.xz"])].
Proof.
  exact (proj1 (proj2 (fresh_archive_is_verified Scenario.good_host "curl"
           "http://releases.llvm.org/4.0.1/llvm-4.0.1.src.tar.xz"
           "http://releases.llvm.org/4.0.1/llvm-4.0.1.src.tar.xz.sig"
           "/c2rust/dependencies/llvm-4.0.1.src.tar.xz" "llvm-4.0.1.src"
           (Scenario.files []) eq_refl eq_refl))).
Defined.

(** ** [configure_and_build_llvm] *)

Lemma _invoke_eq (w : World) (console_output : bool) (cmd : string)
    (args : list string) (st : state) :
  _invoke w console_output cmd args st =
  let done := exec w cmd args (fs st) in
  let st' := {| fs := fs_after done; launched := launched st ++ [(cmd, args)] |} in
  if decide (retcode done = 0)
  then (Ok (retcode done, stdout done, stderr done), st')
  else (Die ("cmd exited with code " +:+ pretty (retcode done) +:+ ": " +:+
             str_cmd w cmd args) (retcode done), st').
Proof.
  unfold _invoke, run, popen. unfold_m. cbn [fst snd].
  now destruct (decide (retcode (exec w cmd args (fs st)) = 0)).
Qed.

(** X6.  When [cmake] has to run and exits with a status other than
    0, [configure_and_build_llvm] dies with that status as exit code
    and [ninja] is not launched: [cmake] is the only program launched. *)
Theorem failed_cmake_stops_the_build (w : World) (ROOT_DIR : string)
    (args : build_args) (st : state) :
  which w "ninja" = true ->
  which w "cmake" = true ->
  let ninja_build_file := Path.join (LLVM_BLD ROOT_DIR) "build.ninja" in
  let build_type := if debug args then "Debug" else "Release" in
  let cmake_args :=
    ["-G"; "Ninja"; LLVM_SRC ROOT_DIR; "-Wno-dev"; "-DCMAKE_C_COMPILER=clang";
     "-DCMAKE_CXX_COMPILER=clang++"; "-DLLVM_BUILD_TESTS=ON";
     "-DCMAKE_BUILD_TYPE=" +:+ build_type; "-DLLVM_ENABLE_ASSERTIONS=1";
     "-DLLVM_TARGETS_TO_BUILD=X86"] in
  let done := exec w "cmake" cmake_args (fs st) in
  (fs st !! ninja_build_file = None \/
   exists prev_build_type,
     (get_ninja_build_type ninja_build_file st).1 = Ok prev_build_type /\
     prev_build_type <> build_type) ->
  retcode done <> 0 ->
  configure_and_build_llvm w ROOT_DIR args st =
  (Die ("cmd exited with code " +:+ pretty (retcode done) +:+ ": " +:+
        str_cmd w "cmake" cmake_args) (retcode done),
   {| fs := fs_after done; launched := launched st ++ [("cmake", cmake_args)] |}).
Proof.
  intros Hninja Hcmake. cbv zeta. intros Hneeded Hfail.
  unfold configure_and_build_llvm.
  rewrite (get_cmd_or_die_found w "ninja" Hninja).
  rewrite (bind_ok _ _ st st "ninja" eq_refl).
  rewrite (bind_ok (isfile _) _ st st _ eq_refl).
  assert (Hrun : ((if (if fs st !! Path.join (LLVM_BLD ROOT_DIR) "build.ninja" is Some _
                       then true else false)
                   then prev ← get_ninja_build_type
                                 (Path.join (LLVM_BLD ROOT_DIR) "build.ninja");
                        ret (negb (String.eqb prev
                                     (if debug args then "Debug" else "Release")))
                   else ret true) : M bool) st = (Ok true, st)).
  { destruct Hneeded as [Hnone | (prev & Hprev & Hne)].
    - now rewrite Hnone.
    - pose proof (get_ninja_build_type_state
                    (Path.join (LLVM_BLD ROOT_DIR) "build.ninja") st) as Hst.
      destruct (get_ninja_build_type _ st) as [o st'] eqn:Hget.
      cbn [fst snd] in *. subst o st'.
      destruct (fs st !! _); [|reflexivity].
      rewrite (bind_ok _ _ _ _ _ Hget). unfold ret, mret, M_ret.
      apply String.eqb_neq in Hne. now rewrite Hne. }
  rewrite (bind_ok _ _ _ _ _ Hrun). cbv beta iota.
  rewrite (get_cmd_or_die_found w "cmake" Hcmake).
  apply bind_die.
  rewrite (bind_ok _ _ st st "cmake" eq_refl).
  apply bind_die. unfold invoke. rewrite _invoke_eq. cbv zeta.
  now destruct (decide _).
Qed.

Lemma failed_cmake_without_build_file :
  (configure_and_build_llvm (host_with_broken "cmake" 1) Scenario.ROOT
     (BuildArgs false false false) (Scenario.files [])).1 =
  Die "cmd exited with code 1: cmake -G Ninja /c2rust/llvm.src -Wno-dev -DCMAKE_C_COMPILER=clang -DCMAKE_CXX_COMPILER=clang++ -DLLVM_BUILD_TESTS=ON -DCMAKE_BUILD_TYPE=Release -DLLVM_ENABLE_ASSERTIONS=1 -DLLVM_TARGETS_TO_BUILD=X86" 1 /\
  launches "ninja"
    (configure_and_build_llvm (host_with_broken "cmake" 1) Scenario.ROOT
       (BuildArgs false false false) (Scenario.files [])).2 = 0%nat.
Proof.
  rewrite (failed_cmake_stops_the_build (host_with_broken "cmake" 1) Scenario.ROOT
             (BuildArgs false false false) (Scenario.files []) eq_refl eq_refl
             (or_introl eq_refl)); [split; reflexivity | discriminate].
Defined.

(** ** [extract_ast_from] *)

Lemma extract_ast_from_eq (w : World) (ast_extr cc_db_path : string)
    (sys_incl_dirs : list string) (kwargs : compile_cmd) (dir filename : string)
    (st : state) :
  directory kwargs = Some dir ->
  file kwargs = Some filename ->
  let filepath := Path.join dir filename in
  let args := ["-p"; Path.dirname cc_db_path; filepath] ++
              map (fun i => "-extra-arg=-I" +:+ i) sys_incl_dirs in
  let done := exec w ast_extr args (fs st) in
  let st' := {| fs := fs_after done; launched := launched st ++ [(ast_extr, args)] |} in
  extract_ast_from w ast_extr cc_db_path sys_incl_dirs kwargs st =
  match fs st !! filepath with
  | None => (Die ("missing file " +:+ filepath) 1, st)
  | Some _ =>
      if decide (retcode done = 0) then
        match fs st' !! (filepath +:+ ".cbor") with
        | Some _ => (Ok (filepath +:+ ".cbor"), st')
        | None => (Raise (AssertionError ("missing: " +:+ filepath +:+ ".cbor")), st')
        end
      else if decide (0 ≤ retcode done) then
        (Die ("sanity testing failed 🔥 : " +:+ strerror w (retcode done))
             (retcode done), st')
      else
        match signal_name w (- retcode done) with
        | Some name =>
            (Die ("sanity testing failed 🔥 : Received signal: " +:+ name)
                 (retcode done), st')
        | None =>
            (Raise (ValueError (pretty (- retcode done) +:+
                                " is not a valid Signals")), st')
        end
  end.
Proof.
  intros Hdir Hfile. cbv zeta. unfold extract_ast_from. rewrite Hdir, Hfile.
  unfold run, popen. unfold_m. cbn [fst snd].
  destruct (fs st !! Path.join dir filename); cbn [negb]; [|reflexivity].
  destruct (decide (retcode _ = 0)).
  - cbn [fs launched]. now destruct (fs_after _ !! _).
  - destruct (decide (0 ≤ retcode _)); [reflexivity|].
    now destruct (signal_name w _).
Qed.

(** [extract_ast_from] returns only after an exit status of 0. *)
Lemma extract_ast_from_failed (w : World) (rc : Z) (st' : state) (p : string) :
  fst
  (if decide (0 ≤ rc) then
     (Die ("sanity testing failed 🔥 : " +:+ strerror w rc) rc, st')
   else
     match signal_name w (- rc) with
     | Some name =>
         (Die ("sanity testing failed 🔥 : Received signal: " +:+ name) rc, st')
     | None =>
         (Raise (ValueError (pretty (- rc) +:+ " is not a valid Signals")), st')
     end) <> Ok p.
Proof.
  destruct (decide (0 ≤ rc)); [discriminate|].
  destruct (signal_name w (- rc)); discriminate.
Qed.

(** X7.  [extract_ast_from] launches nothing for an entry it cannot
    use: without the key [directory] or the key [file] it dies with
    [couldn't parse] and the name of the database, and with both keys
    but no such source file it dies with [missing file]; the exit code
    is 1 and the state is left as it was. *)
Theorem unusable_entry_launches_nothing (w : World) (ast_extr cc_db_path : string)
    (sys_incl_dirs : list string) (kwargs : compile_cmd) (st : state) :
  (directory kwargs = None \/ file kwargs = None ->
   extract_ast_from w ast_extr cc_db_path sys_incl_dirs kwargs st =
   (Die ("couldn't parse " +:+ cc_db_path) 1, st)) /\
  (forall dir filename,
     directory kwargs = Some dir -> file kwargs = Some filename ->
     fs st !! Path.join dir filename = None ->
     extract_ast_from w ast_extr cc_db_path sys_incl_dirs kwargs st =
     (Die ("missing file " +:+ Path.join dir filename) 1, st)).
Proof.
  split.
  - intros H. unfold extract_ast_from.
    destruct (directory kwargs), (file kwargs), H; try discriminate; reflexivity.
  - intros dir filename Hdir Hfile Hsrc.
    rewrite (extract_ast_from_eq w _ _ _ _ dir filename st Hdir Hfile).
    cbv zeta. now rewrite Hsrc.
Qed.

Lemma entry_without_directory_launches_nothing :
  extract_ast_from Scenario.good_host Scenario.AST_EXTRACTOR
    "/p/compile_commands.json" ["/usr/include"]
    {| arguments := None; command := Some "cc -c a.c";
       directory := None; file := Some "a.c" |}
    Scenario.three_sources =
  (Die "couldn't parse /p/compile_commands.json" 1, Scenario.three_sources).
Proof.
  apply (proj1 (unusable_entry_launches_nothing Scenario.good_host
                  Scenario.AST_EXTRACTOR "/p/compile_commands.json"
                  ["/usr/include"] _ Scenario.three_sources)).
  left. reflexivity.
Defined.

(** X8.  When [extract_ast_from] returns a path, the entry had both
    keys, the source file was there, the extractor was the one program
    launched, with [-p], the directory of the database, the source and
    one [-extra-arg=-I] for each include directory, it exited with
    status 0, and the path is the source path followed by [.cbor], a
    file of the resulting state. *)
Theorem extracted_artifact_exists (w : World) (ast_extr cc_db_path : string)
    (sys_incl_dirs : list string) (kwargs : compile_cmd) (st : state)
    (cbor_outfile : string) :
  (extract_ast_from w ast_extr cc_db_path sys_incl_dirs kwargs st).1 =
  Ok cbor_outfile ->
  exists dir filename,
    let filepath := Path.join dir filename in
    let args := ["-p"; Path.dirname cc_db_path; filepath] ++
                map (fun i => "-extra-arg=-I" +:+ i) sys_incl_dirs in
    let after := (extract_ast_from w ast_extr cc_db_path sys_incl_dirs kwargs st).2 in
    directory kwargs = Some dir /\ file kwargs = Some filename /\
    is_Some (fs st !! filepath) /\
    retcode (exec w ast_extr args (fs st)) = 0 /\
    cbor_outfile = filepath +:+ ".cbor" /\
    is_Some (fs after !! cbor_outfile) /\
    fs after = fs_after (exec w ast_extr args (fs st)) /\
    launched after = launched st ++ [(ast_extr, args)].
Proof.
  intros H.
  destruct (directory kwargs) as [dir|] eqn:Hdir;
    [|unfold extract_ast_from in H; now rewrite Hdir in H].
  destruct (file kwargs) as [filename|] eqn:Hfile;
    [|unfold extract_ast_from in H; now rewrite Hdir, Hfile in H].
  exists dir, filename. cbv zeta.
  rewrite (extract_ast_from_eq w _ _ _ _ dir filename st Hdir Hfile) in *.
  cbv zeta in *.
  destruct (fs st !! Path.join dir filename) as [src|]; [|discriminate].
  destruct (decide (retcode _ = 0)) as [H0|];
    [|now apply extract_ast_from_failed in H].
  cbn [fs] in *.
  destruct (fs_after _ !! (_ +:+ ".cbor")) as [cbor|] eqn:Hcbor; [|discriminate].
  injection H as <-. cbn [snd fs launched]. rewrite Hcbor. eauto 10.
Qed.

Lemma extracted_a_exists :
  is_Some (fs (extract_ast_from Scenario.good_host Scenario.AST_EXTRACTOR
                 "/p/compile_commands.json" ["/usr/include"]
                 (Scenario.entry "a.c") Scenario.three_sources).2
             !! "/p/a.c.cbor").
Proof.
  destruct (extracted_artifact_exists Scenario.good_host Scenario.AST_EXTRACTOR
              "/p/compile_commands.json" ["/usr/include"]
              (Scenario.entry "a.c") Scenario.three_sources "/p/a.c.cbor"
              eq_refl) as (dir & filename & _ & _ & _ & _ & _ & H & _).
  exact H.
Defined.

(** X9.  With a usable entry, a failing extractor is fatal and a
    missing artifact is not handled.  A positive exit status makes
    [extract_ast_from] die with that status as exit code and the text
    of [os.strerror]; a negative status, the number of a signal the
    host knows, makes it die with that status and the name of the
    signal; a negative status whose signal is not in [signal.Signals]
    ends in the [ValueError] of that lookup, which nothing handles.
    All this happens before any look at the artifact; a status of 0
    without the [.cbor] file raises [AssertionError]. *)
Theorem extractor_failure_is_fatal (w : World) (ast_extr cc_db_path : string)
    (sys_incl_dirs : list string) (kwargs : compile_cmd) (dir filename : string)
    (st : state) :
  directory kwargs = Some dir ->
  file kwargs = Some filename ->
  is_Some (fs st !! Path.join dir filename) ->
  let filepath := Path.join dir filename in
  let done := exec w ast_extr
                (["-p"; Path.dirname cc_db_path; filepath] ++
                 map (fun i => "-extra-arg=-I" +:+ i) sys_incl_dirs) (fs st) in
  let outcome := (extract_ast_from w ast_extr cc_db_path sys_incl_dirs kwargs st).1 in
  (0 < retcode done ->
   outcome = Die ("sanity testing failed 🔥 : " +:+ strerror w (retcode done))
                 (retcode done)) /\
  (forall name,
     retcode done < 0 -> signal_name w (- retcode done) = Some name ->
     outcome = Die ("sanity testing failed 🔥 : Received signal: " +:+ name)
                   (retcode done)) /\
  (retcode done < 0 -> signal_name w (- retcode done) = None ->
   outcome = Raise (ValueError (pretty (- retcode done) +:+
                                " is not a valid Signals"))) /\
  (retcode done = 0 -> fs_after done !! (filepath +:+ ".cbor") = None ->
   outcome = Raise (AssertionError ("missing: " +:+ filepath +:+ ".cbor"))).
Proof.
  intros Hdir Hfile [src Hsrc]. cbv zeta.
  rewrite (extract_ast_from_eq w _ _ _ _ dir filename st Hdir Hfile).
  cbv zeta. rewrite Hsrc.
  destruct (decide (retcode _ = 0)) as [H0|H0].
  - split; [intros; lia|]. split; [intros; lia|]. split; [intros; lia|].
    intros _ Hnone. cbn [fs]. now rewrite Hnone.
  - destruct (decide (0 ≤ retcode _)) as [Hpos|Hneg].
    + split; [intros _; reflexivity|]. repeat split; intros; lia.
    + split; [intros; lia|].
      split; [intros name _ Hname; now rewrite Hname|].
      split; [intros _ Hname; now rewrite Hname | intros; lia].
Qed.

(** An extractor ended by signal 11 is reported as [SIGSEGV]; one
    ended by signal 35, which the host does not name, leaves a
    [ValueError]. *)
Lemma extractor_killed_by_signal :
  (extract_ast_from (host_with_broken Scenario.AST_EXTRACTOR (-11))
     Scenario.AST_EXTRACTOR "/p/compile_commands.json" ["/usr/include"]
     (Scenario.entry "a.c") Scenario.three_sources).1 =
  Die "sanity testing failed 🔥 : Received signal: SIGSEGV" (-11) /\
  (extract_ast_from (host_with_broken Scenario.AST_EXTRACTOR (-35))
     Scenario.AST_EXTRACTOR "/p/compile_commands.json" ["/usr/include"]
     (Scenario.entry "a.c") Scenario.three_sources).1 =
  Raise (ValueError "35 is not a valid Signals").
Proof.
  split.
  - apply (proj1 (proj2
             (extractor_failure_is_fatal
                (host_with_broken Scenario.AST_EXTRACTOR (-11))
                Scenario.AST_EXTRACTOR "/p/compile_commands.json" ["/usr/include"]
                (Scenario.entry "a.c") "/p" "a.c" Scenario.three_sources
                eq_refl eq_refl (ex_intro _ "int a;" eq_refl))) "SIGSEGV").
    + vm_compute. reflexivity.
    + vm_compute. reflexivity.
  - apply (proj1 (proj2 (proj2
             (extractor_failure_is_fatal
                (host_with_broken Scenario.AST_EXTRACTOR (-35))
                Scenario.AST_EXTRACTOR "/p/compile_commands.json" ["/usr/include"]
                (Scenario.entry "a.c") "/p" "a.c" Scenario.three_sources
                eq_refl eq_refl (ex_intro _ "int a;" eq_refl))))).
    + vm_compute. reflexivity.
    + vm_compute. reflexivity.
Defined.

(** ** [try_locate_elf_object] and the compiler gate *)

(** X10.  [try_locate_elf_object] only reads: it leaves the state as
    it was, and a path it returns is the path of a file that exists. *)
Theorem located_object_exists (w : World) (cmd : compile_cmd) (st : state) :
  (try_locate_elf_object w cmd st).2 = st /\
  match (try_locate_elf_object w cmd st).1 with
  | Ok (Some outpath) => is_Some (fs st !! outpath)
  | _ => True
  end.
Proof.
  unfold try_locate_elf_object, getitem. unfold_m.
  destruct (arguments cmd) as [args|], (command cmd) as [c|],
    (directory cmd) as [dir|]; cbn [fst snd]; auto;
    (destruct (Re.search Re.output_flag _) as [outfile|];
     [|destruct (file cmd) as [f|]; cbn [fst snd]; auto]);
    (match goal with
     | |- context [fs st !! ?p] => destruct (fs st !! p) eqn:Hp
     end; cbn [fst snd]; rewrite ?Hp; auto).
Qed.

Lemma getitem_some (field : compile_cmd -> option string) (key : string)
    (cmd : compile_cmd) (v : string) :
  field cmd = Some v -> getitem field key cmd = ret v.
Proof. intros H. unfold getitem. now rewrite H. Qed.

Lemma getitem_none (field : compile_cmd -> option string) (key : string)
    (cmd : compile_cmd) :
  field cmd = None -> getitem field key cmd = raise (KeyError key).
Proof. intros H. unfold getitem. now rewrite H. Qed.

(** The test of the first comprehension of
    [ensure_code_compiled_with_clang] on an entry with a [file]. *)
Lemma filter_c_files (cc_db : list compile_cmd) (st : state) :
  Forall (fun c => is_Some (file c)) cc_db ->
  filter_m (fun c => f ← getitem file "file" c; ret (Str.endswith f ".c")) cc_db st =
  (Ok (List.filter
         (fun c => if file c is Some f then Str.endswith f ".c" else false) cc_db),
   st).
Proof.
  induction 1 as [|c cc_db [f Hf] _ IH]; [reflexivity|].
  cbn [filter_m List.filter]. rewrite (getitem_some file "file" c f Hf), Hf.
  rewrite (bind_ok (ret f ≫= _) _ st st (Str.endswith f ".c") eq_refl).
  rewrite (bind_ok _ _ _ _ _ IH). reflexivity.
Qed.

(** X11.  A database in which every entry names a file and no file
    name ends in [.c], the empty database included, makes
    [ensure_code_compiled_with_clang] die with exit code 1 before
    anything is looked up or launched. *)
Theorem gate_needs_a_c_file (w : World) (cc_db : list compile_cmd) (st : state) :
  Forall (fun c => exists f, file c = Some f /\ Str.endswith f ".c" = false) cc_db ->
  ensure_code_compiled_with_clang w cc_db st =
  (Die "didn't find any commands compling C files" 1, st).
Proof.
  intros H. unfold ensure_code_compiled_with_clang.
  assert (Hfiles : Forall (fun c => is_Some (file c)) cc_db).
  { eapply Forall_impl; [exact H|]. intros c (f & -> & _). eauto. }
  rewrite (bind_ok _ _ _ _ _ (filter_c_files cc_db st Hfiles)).
  assert (Hnone : List.filter
            (fun c => if file c is Some f then Str.endswith f ".c" else false)
            cc_db = []).
  { clear Hfiles. induction H as [|c cc_db (f & Hf & Hc) _ IH]; [reflexivity|].
    cbn [List.filter]. now rewrite Hf, Hc. }
  rewrite Hnone. reflexivity.
Qed.

Lemma gate_refuses_cxx_only :
  ensure_code_compiled_with_clang Scenario.good_host
    [ {| arguments := None; command := Some "c++ -c a.cpp";
         directory := Some "/d"; file := Some "a.cpp" |} ]
    Scenario.two_objects =
  (Die "didn't find any commands compling C files" 1, Scenario.two_objects).
Proof.
  apply (gate_needs_a_c_file Scenario.good_host).
  repeat constructor. exists "a.cpp". split; reflexivity.
Defined.

(** X12.  An entry without the key [file] anywhere in the database
    makes [ensure_code_compiled_with_clang] end in [KeyError], which
    nothing handles, before anything is looked up or launched. *)
Theorem entry_without_file_is_a_key_error (w : World) (cc_db : list compile_cmd)
    (st : state) :
  (exists c, In c cc_db /\ file c = None) ->
  ensure_code_compiled_with_clang w cc_db st = (Raise (KeyError "file"), st).
Proof.
  intros (bad & Hin & Hbad). unfold ensure_code_compiled_with_clang.
  apply bind_raise.
  induction cc_db as [|c cc_db IH]; [contradiction|].
  cbn [filter_m].
  destruct (file c) as [f|] eqn:Hf.
  - rewrite (getitem_some file "file" c f Hf).
    rewrite (bind_ok (ret f ≫= _) _ st st (Str.endswith f ".c") eq_refl).
    apply bind_raise. apply IH.
    destruct Hin as [->|Hin]; [congruence | exact Hin].
  - now rewrite (getitem_none file "file" c Hf).
Qed.

Lemma second_entry_without_file :
  ensure_code_compiled_with_clang Scenario.good_host
    [ Scenario.entry "a.c";
      {| arguments := None; command := Some "cc -c b.c";
         directory := Some "/p"; file := None |} ]
    Scenario.three_sources =
  (Raise (KeyError "file"), Scenario.three_sources).
Proof.
  apply (entry_without_file_is_a_key_error Scenario.good_host).
  eexists. split; [right; left; reflexivity | reflexivity].
Defined.

Lemma try_locate_reads_only (w : World) (cmd : compile_cmd) (st : state) :
  (try_locate_elf_object w cmd st).2 = st.
Proof.
  unfold try_locate_elf_object, getitem. unfold_m.
  destruct (arguments cmd) as [args|], (command cmd) as [c|],
    (directory cmd) as [dir|]; cbn [fst snd]; auto;
    (destruct (Re.search Re.output_flag _) as [outfile|];
     [|destruct (file cmd) as [f|]; cbn [fst snd]; auto]);
    (match goal with
     | |- context [fs st !! ?p] => destruct (fs st !! p)
     end; reflexivity).
Qed.

Lemma filter_c_files_inv (cc_db kept : list compile_cmd) (st st' : state) :
  filter_m (fun c => f ← getitem file "file" c; ret (Str.endswith f ".c")) cc_db st =
  (Ok kept, st') ->
  st' = st /\ kept = List.filter is_c_file cc_db.
Proof.
  revert kept. induction cc_db as [|c cc_db IH]; intros kept.
  - intros [= <- <-]. auto.
  - cbn [filter_m List.filter]. unfold is_c_file at 1.
    destruct (file c) as [f|] eqn:Hf.
    + rewrite (getitem_some file "file" c f Hf).
      rewrite (bind_ok (ret f ≫= _) _ st st (Str.endswith f ".c") eq_refl).
      destruct (filter_m _ cc_db st) as [[xs|?|?] st1] eqn:Hrest;
        [rewrite (bind_ok _ _ _ _ _ Hrest)
        |now rewrite (bind_die _ _ _ _ _ _ Hrest)
        |now rewrite (bind_raise _ _ _ _ _ Hrest)].
      intros [= <- <-]. destruct (IH xs eq_refl) as [-> ->]. auto.
    + rewrite (getitem_none file "file" c Hf). discriminate.
Qed.

Lemma map_locate_inv (w : World) (cmds : list compile_cmd)
    (objs : list (option string)) (st st' : state) :
  map_m (try_locate_elf_object w) cmds st = (Ok objs, st') ->
  st' = st /\
  Forall2 (fun c o => (try_locate_elf_object w c st).1 = Ok o) cmds objs.
Proof.
  revert objs st'. induction cmds as [|c cmds IH]; intros objs st'.
  - intros [= <- <-]. auto.
  - cbn [map_m].
    pose proof (try_locate_reads_only w c st) as Hst.
    destruct (try_locate_elf_object w c st) as [[o|?|?] st1] eqn:Hc;
      [rewrite (bind_ok _ _ _ _ _ Hc)
      |now rewrite (bind_die _ _ _ _ _ _ Hc)
      |now rewrite (bind_raise _ _ _ _ _ Hc)].
    cbn [snd] in Hst. subst st1.
    destruct (map_m _ cmds st) as [[os|?|?] st2] eqn:Hrest;
      [rewrite (bind_ok _ _ _ _ _ Hrest)
      |now rewrite (bind_die _ _ _ _ _ _ Hrest)
      |now rewrite (bind_raise _ _ _ _ _ Hrest)].
    intros [= <- <-]. destruct (IH os st2 eq_refl) as [-> HF].
    split; [reflexivity|]. constructor; [now rewrite Hc | exact HF].
Qed.

Lemma map_readelf_inv (w : World) (objs : list string)
    (sections : list (string * string)) (st st' : state) :
  readelf_reads_only w ->
  map_m (fun f => c ← call w "readelf" ["-p"; ".comment"; f]; ret (f, c)) objs st =
  (Ok sections, st') ->
  fs st' = fs st /\
  Forall2 (fun f s =>
             retcode (exec w "readelf" ["-p"; ".comment"; f] (fs st)) = 0 /\
             s = (f, stdout (exec w "readelf" ["-p"; ".comment"; f] (fs st))))
          objs sections.
Proof.
  intros Hro. revert sections st st'.
  induction objs as [|f objs IH]; intros sections st st'.
  - intros [= <- <-]. auto.
  - cbn [map_m].
    pose proof (call_eq w "readelf" ["-p"; ".comment"; f] st) as Hcall.
    cbv zeta in Hcall. rewrite Hro in Hcall.
    destruct (decide (retcode _ = 0)) as [H0|];
      [|now rewrite (bind_raise (call w "readelf" _ ≫= _) _ _ _ _
                       (bind_raise _ _ _ _ _ Hcall))].
    set (st1 := {| fs := fs st; launched := _ |}) in *.
    rewrite (bind_ok (call w "readelf" _ ≫= _) _ st st1
               (f, stdout (exec w "readelf" ["-p"; ".comment"; f] (fs st))))
      by (now rewrite (bind_ok _ _ _ _ _ Hcall)).
    cbv beta.
    destruct (map_m (fun f => c ← call w "readelf" ["-p"; ".comment"; f]; ret (f, c))
                objs st1) as [[ss|?|?] st2] eqn:Hrest;
      [rewrite (bind_ok _ _ _ _ _ Hrest)
      |now rewrite (bind_die _ _ _ _ _ _ Hrest)
      |now rewrite (bind_raise _ _ _ _ _ Hrest)].
    intros [= <- <-]. destruct (IH ss st1 st2 Hrest) as [Hfs HF].
    split; [exact Hfs|]. constructor; [auto | exact HF].
Qed.

(** X13.  On a host where [readelf] writes nothing, the gate lets
    through only what it checked: when
    [ensure_code_compiled_with_clang] returns, every entry of the
    database whose file name ends in [.c] and whose object
    [try_locate_elf_object] finds was read by [readelf] with status 0,
    and its [.comment] text contains [clang]. *)
Theorem gate_passes_only_clang_objects (w : World) (cc_db : list compile_cmd)
    (st : state) :
  readelf_reads_only w ->
  (ensure_code_compiled_with_clang w cc_db st).1 = Ok tt ->
  forall c outpath,
    In c cc_db ->
    is_c_file c = true ->
    (try_locate_elf_object w c st).1 = Ok (Some outpath) ->
    retcode (exec w "readelf" ["-p"; ".comment"; outpath] (fs st)) = 0 /\
    Str.contains "clang"
      (stdout (exec w "readelf" ["-p"; ".comment"; outpath] (fs st))) = true.
Proof.
  intros Hro Hok c outpath Hin Hc Hloc.
  unfold ensure_code_compiled_with_clang in Hok.
  destruct (filter_m (fun c => f ← getitem file "file" c; ret (Str.endswith f ".c"))
              cc_db st) as [[kept|?|?] st1] eqn:Hkept;
    [|now rewrite (bind_die _ _ _ _ _ _ Hkept) in Hok
     |now rewrite (bind_raise _ _ _ _ _ Hkept) in Hok].
  rewrite (bind_ok _ _ _ _ _ Hkept) in Hok.
  apply filter_c_files_inv in Hkept as [-> ->].
  destruct (length (List.filter is_c_file cc_db) =? 0)%nat; [discriminate|].
  rewrite (bind_ok (ret tt) _ st st tt eq_refl) in Hok.
  destruct (map_m (try_locate_elf_object w) (List.filter is_c_file cc_db) st)
    as [[objs|?|?] st2] eqn:Hobjs;
    [|now rewrite (bind_die _ _ _ _ _ _ Hobjs) in Hok
     |now rewrite (bind_raise _ _ _ _ _ Hobjs) in Hok].
  rewrite (bind_ok _ _ _ _ _ Hobjs) in Hok.
  apply map_locate_inv in Hobjs as [-> Hobjs].
  unfold get_cmd_or_die in Hok.
  destruct (which w "readelf"); [|discriminate].
  rewrite (bind_ok (ret "readelf") _ st st "readelf" eq_refl) in Hok.
  destruct (map_m (fun f => c ← call w "readelf" ["-p"; ".comment"; f]; ret (f, c))
              (omap id objs) st) as [[sections|?|?] st3] eqn:Hsec;
    [|now rewrite (bind_die _ _ _ _ _ _ Hsec) in Hok
     |now rewrite (bind_raise _ _ _ _ _ Hsec) in Hok].
  rewrite (bind_ok _ _ _ _ _ Hsec) in Hok.
  apply (map_readelf_inv w _ _ _ _ Hro) in Hsec as [_ Hsec].
  assert (Hclang : List.filter
            (fun fc : string * string => negb (Str.contains "clang" fc.2))
            sections = []).
  { destruct (List.filter _ sections); [reflexivity | discriminate]. }
  assert (Hobj : In outpath (omap id objs)).
  { assert (Hkeep : In c (List.filter is_c_file cc_db))
      by (apply List.filter_In; auto).
    clear -Hobjs Hkeep Hloc.
    induction Hobjs as [|c' o cmds objs' Hc' _ IH]; [contradiction|].
    destruct Hkeep as [->|Hkeep].
    - rewrite Hloc in Hc'. injection Hc' as <-. cbn. now left.
    - cbn. destruct o; cbn; [right|]; auto. }
  clear -Hsec Hclang Hobj.
  induction Hsec as [|f s objs' sections' [H0 ->] _ IH]; [contradiction|].
  cbn [List.filter snd] in Hclang.
  destruct (Str.contains "clang" _) eqn:Hcl; cbn [negb] in Hclang;
    [|discriminate].
  destruct Hobj as [->|Hobj]; auto.
Qed.

Lemma good_host_reads_only : readelf_reads_only Scenario.good_host.
Proof. intros args files. reflexivity. Qed.

Lemma gate_passed_clang_object :
  retcode (exec Scenario.good_host "readelf" ["-p"; ".comment"; "/p/a.o"]
             (fs (Scenario.files [("/p/a.o", "clang version 4.0.1")]))) = 0 /\
  Str.contains "clang"
    (stdout (exec Scenario.good_host "readelf" ["-p"; ".comment"; "/p/a.o"]
               (fs (Scenario.files [("/p/a.o", "clang version 4.0.1")])))) = true.
Proof.
  apply (gate_passes_only_clang_objects Scenario.good_host
           Scenario.three_entries
           (Scenario.files [("/p/a.o", "clang version 4.0.1")])
           good_host_reads_only eq_refl (Scenario.entry "a.c") "/p/a.o").
  - left. reflexivity.
  - reflexivity.
  - reflexivity.
Defined.

(** ** [transpile_files] *)

Lemma transpile_files_split (w : World) (ROOT_DIR : string)
    (args : transpile_args) (st : state) :
  transpile_files w ROOT_DIR args st =
  (transpile_prologue w ROOT_DIR args ≫= transpile_jobs w args) st.
Proof.
  unfold transpile_files, transpile_prologue, transpile_jobs.
  unfold mbind, M_bind.
  destruct (get_cmd_or_die w (Path.join (LLVM_BIN ROOT_DIR) "ast-extractor") st)
    as [[ast_extr|?|?] st1]; try reflexivity.
  destruct (get_cmd_or_die w _ st1) as [[ast_impo|?|?] st2]; try reflexivity.
  destruct ((if negb (String.eqb (arg_filter args) "")
             then filter_cc_db args (commands_json_load args)
             else ret (commands_json_load args)) st2)
    as [[cc_db|?|?] st3]; try reflexivity.
  destruct (ensure_code_compiled_with_clang w cc_db st3) as [[[]|?|?] st4];
    try reflexivity.
  destruct (get_system_include_dirs w st4) as [[include_dirs|?|?] st5];
    reflexivity.
Qed.

(** X14.  With more than one job, the outcome of [transpile_files] is
    the outcome of what it does before its loop: once the tools are
    found, the database is filtered, the compiler gate has passed and
    the include directories are known, [transpile_files] returns
    normally whatever happens to the jobs. *)
Theorem pool_outcome_ignores_jobs (w : World) (ROOT_DIR : string)
    (args : transpile_args) (st : state) :
  1 < arg_jobs args ->
  (transpile_files w ROOT_DIR args st).1 =
  match (transpile_prologue w ROOT_DIR args st).1 with
  | Ok _ => Ok tt
  | Die emsg ecode => Die emsg ecode
  | Raise e => Raise e
  end.
Proof.
  intros Hjobs. rewrite transpile_files_split. unfold mbind at 1, M_bind at 1.
  destruct (transpile_prologue w ROOT_DIR args st)
    as [[[[[ast_extr ast_impo] cc_db] include_dirs]|?|?] st']; try reflexivity.
  cbn [fst]. unfold transpile_jobs, with_thread_pool.
  destruct (decide (arg_jobs args = 1)); [lia|].
  destruct (decide (arg_jobs args ≤ 0)); [lia|].
  apply submitted_jobs_return.
Qed.

Lemma pool_ignores_failed_import :
  (transpile_files Scenario.import_fails_on_a Scenario.ROOT
     (Scenario.transpile "" 2) Scenario.three_sources).1 = Ok tt.
Proof.
  rewrite (pool_outcome_ignores_jobs Scenario.import_fails_on_a Scenario.ROOT
             (Scenario.transpile "" 2) Scenario.three_sources); reflexivity.
Defined.

(** X15.  A number of jobs of 0 or less is refused late: when what
    comes before the loop of [transpile_files] has succeeded, the
    thread pool raises [ValueError], which nothing handles, and no
    entry is processed. *)
Theorem no_workers_is_a_value_error (w : World) (ROOT_DIR : string)
    (args : transpile_args) (st st' : state)
    (p : string * string * list compile_cmd * list string) :
  arg_jobs args <= 0 ->
  transpile_prologue w ROOT_DIR args st = (Ok p, st') ->
  transpile_files w ROOT_DIR args st =
  (Raise (ValueError "max_workers must be greater than 0"), st').
Proof.
  intros Hjobs Hpro. rewrite transpile_files_split.
  rewrite (bind_ok _ _ _ _ _ Hpro).
  destruct p as [[[ast_extr ast_impo] cc_db] include_dirs].
  unfold transpile_jobs, with_thread_pool.
  destruct (decide (arg_jobs args = 1)); [lia|].
  destruct (decide (arg_jobs args ≤ 0)); [reflexivity | lia].
Qed.

Lemma zero_jobs_is_a_value_error :
  (transpile_files Scenario.good_host Scenario.ROOT
     (Scenario.transpile "" 0) Scenario.three_sources).1 =
  Raise (ValueError "max_workers must be greater than 0").
Proof.
  destruct (transpile_prologue Scenario.good_host Scenario.ROOT
              (Scenario.transpile "" 0) Scenario.three_sources)
    as [[p|emsg ecode|e] st'] eqn:Hpro;
    [|vm_compute in Hpro; discriminate | vm_compute in Hpro; discriminate].
  rewrite (no_workers_is_a_value_error Scenario.good_host Scenario.ROOT
             (Scenario.transpile "" 0) Scenario.three_sources st' p);
    [reflexivity | discriminate | exact Hpro].
Defined.

(** X16.  With [--import-only], [transpile_single] never launches the
    extractor: for an entry with both keys it looks for the source
    path followed by [.cbor]; without that file it raises
    [AssertionError] and launches nothing, with it the importer, given
    that path, is the one program launched. *)
Theorem import_only_needs_the_artifact (w : World) (args : transpile_args)
    (ast_extr ast_impo : string) (include_dirs : list string)
    (cmd : compile_cmd) (dir filename : string) (st : state) :
  arg_import_only args = true ->
  directory cmd = Some dir ->
  file cmd = Some filename ->
  let cbor_file := Path.join dir (filename +:+ ".cbor") in
  let job := transpile_single w args ast_extr ast_impo include_dirs cmd in
  (fs st !! cbor_file = None ->
   job st = (Raise (AssertionError ("missing: " +:+ cbor_file)), st)) /\
  (is_Some (fs st !! cbor_file) ->
   launched (job st).2 = launched st ++ [(ast_impo, [cbor_file])]).
Proof.
  intros Honly Hdir Hfile. cbv zeta.
  unfold transpile_single, cbor_file_of. rewrite Honly.
  rewrite (getitem_some directory "directory" cmd dir Hdir).
  rewrite (getitem_some file "file" cmd filename Hfile).
  rewrite (bind_ok (ret dir ≫= _) _ st st
             (Path.join dir (filename +:+ ".cbor")) eq_refl).
  rewrite (bind_ok (isfile _) _ st st _ eq_refl).
  split.
  - intros ->. reflexivity.
  - intros [cbor ->]. rewrite (bind_ok (assert true _) _ st st tt eq_refl).
    unfold invoke_quietly.
    pose proof (_invoke_eq w false ast_impo
                  [Path.join dir (filename +:+ ".cbor")] st) as Hinv.
    cbv zeta in Hinv.
    destruct (decide _);
      [rewrite (bind_ok _ _ _ _ _ Hinv) | rewrite (bind_die _ _ _ _ _ _ Hinv)];
      reflexivity.
Qed.

Lemma import_only_without_artifact :
  transpile_single Scenario.good_host
    {| commands_json_name := "/p/compile_commands.json";
       commands_json_load := Scenario.three_entries;
       arg_import_only := true; arg_filter := ""; arg_jobs := 1 |}
    Scenario.AST_EXTRACTOR Scenario.AST_IMPORTER ["/usr/include"]
    (Scenario.entry "a.c") Scenario.three_sources =
  (Raise (AssertionError "missing: /p/a.c.cbor"), Scenario.three_sources).
Proof.
  apply (import_only_needs_the_artifact Scenario.good_host
           {| commands_json_name := "/p/compile_commands.json";
              commands_json_load := Scenario.three_entries;
              arg_import_only := true; arg_filter := ""; arg_jobs := 1 |}
           Scenario.AST_EXTRACTOR Scenario.AST_IMPORTER ["/usr/include"]
           (Scenario.entry "a.c") "/p" "a.c" Scenario.three_sources
           eq_refl eq_refl eq_refl).
  reflexivity.
Defined.

(** ** [update_cbor_prefix] *)

Lemma update_cbor_prefix_loop_lines (ROOT_DIR : string) (all_lines : list string)
    (writeback : bool) :
  (update_cbor_prefix_loop ROOT_DIR all_lines writeback).1 =
  map (rewritten_line ROOT_DIR) all_lines.
Proof.
  revert writeback. induction all_lines as [|line rest IH]; intros wb;
    [reflexivity|].
  cbn [update_cbor_prefix_loop map]. unfold rewritten_line at 1.
  destruct (Re.rmatch prefix_assignment line) as [prefix|].
  - specialize (IH (negb (String.eqb prefix (CBOR_PREFIX ROOT_DIR)))).
    destruct (update_cbor_prefix_loop ROOT_DIR rest _). cbn [fst] in *.
    now rewrite IH.
  - specialize (IH wb).
    destruct (update_cbor_prefix_loop ROOT_DIR rest wb). cbn [fst] in *.
    now rewrite IH.
Qed.

Lemma update_cbor_prefix_eq (ROOT_DIR makefile : string) (st : state) :
  update_cbor_prefix ROOT_DIR makefile st =
  match fs st !! makefile with
  | None => (Die ("not found: " +:+ makefile) ENOENT, st)
  | Some text =>
      let all_lines := Str.splitlines_keepends (Str.universal_newlines false text) in
      if (update_cbor_prefix_loop ROOT_DIR all_lines false).2
      then (Ok tt,
            {| fs := <[makefile :=
                         Str.join "" (map (rewritten_line ROOT_DIR) all_lines)]> (fs st);
               launched := launched st |})
      else (Ok tt, st)
  end.
Proof.
  unfold update_cbor_prefix.
  rewrite (bind_ok (isfile makefile) _ st st _ eq_refl).
  destruct (fs st !! makefile) as [text|] eqn:Hfile; cbn [negb];
    [|reflexivity].
  rewrite (bind_ok (ret tt) _ st st tt eq_refl).
  rewrite (bind_ok (readlines makefile) _ st st
             (Str.splitlines_keepends (Str.universal_newlines false text)))
    by (unfold readlines; now rewrite Hfile).
  cbv zeta. rewrite <- (update_cbor_prefix_loop_lines ROOT_DIR _ false).
  now destruct (update_cbor_prefix_loop ROOT_DIR _ false) as [lines [|]].
Qed.

Lemma no_newline_append (a b : string) :
  Str.no_newline (a +:+ b) = Str.no_newline a && Str.no_newline b.
Proof.
  induction a as [|c a IH]; [reflexivity|].
  rewrite append_cons. simpl. now rewrite IH, !andb_assoc.
Qed.

Lemma file_lines_cons (l : string) (ls : list string) :
  file_lines (l :: ls) <->
  (ls = [] /\ (full_line l \/ open_line l)) \/
  (ls <> [] /\ full_line l /\ file_lines ls).
Proof.
  destruct ls as [|l' ls]; cbn [file_lines].
  - split; [auto | intros [[_ ?]|[? _]]; [assumption | congruence]].
  - split; [intros [? ?]; right; repeat split; auto; discriminate|].
    intros [[? _]|(_ & ? & ?)]; [discriminate | auto].
Qed.

Lemma full_line_cons (c : ascii) (l : string) :
  Ascii.eqb c Str.CR = false -> Ascii.eqb c Str.LF = false ->
  full_line l -> full_line (String c l).
Proof.
  intros Hcr Hlf (body & -> & Hbody). exists (String c body).
  split; [reflexivity|]. simpl. now rewrite Hcr, Hlf, Hbody.
Qed.

Lemma open_line_cons (c : ascii) (l : string) :
  Ascii.eqb c Str.CR = false -> Ascii.eqb c Str.LF = false ->
  l = "" \/ open_line l -> open_line (String c l).
Proof.
  intros Hcr Hlf H. split; [discriminate|]. simpl. rewrite Hcr, Hlf.
  destruct H as [->|[_ H]]; [reflexivity | exact H].
Qed.

(** The lines of a text without carriage return are well formed. *)
Lemma splitlines_file_lines (s : string) :
  all_chars not_cr s = true -> file_lines (Str.splitlines_keepends s).
Proof.
  induction s as [|c s IH]; [constructor|].
  simpl. intros H. apply andb_prop in H as [Hc Hs].
  apply negb_true_iff in Hc. specialize (IH Hs).
  destruct (Ascii.eqb c Str.LF) eqn:Hlf.
  - apply Ascii.eqb_eq in Hlf as ->. apply file_lines_cons.
    assert (Hfull : full_line (String Str.LF "")) by (now exists "").
    destruct (Str.splitlines_keepends s); [left | right]; auto;
      repeat split; auto; discriminate.
  - destruct (Str.splitlines_keepends s) as [|l ls].
    + apply file_lines_cons. left. split; [reflexivity|]. right.
      apply open_line_cons; auto.
    + apply file_lines_cons in IH. apply file_lines_cons.
      destruct IH as [[-> [Hl|Hl]]|(Hls & Hl & Hrest)].
      * left. split; [reflexivity|]. left. now apply full_line_cons.
      * left. split; [reflexivity|]. right. apply open_line_cons; auto.
      * right. repeat split; auto. now apply full_line_cons.
Qed.

Lemma universal_newlines_no_cr (after_cr : bool) (s : string) :
  all_chars not_cr (Str.universal_newlines after_cr s) = true.
Proof.
  revert after_cr. induction s as [|c s IH]; intros f; [reflexivity|].
  simpl. destruct (Ascii.eqb c Str.CR) eqn:Hcr.
  - simpl. apply IH.
  - destruct (Ascii.eqb c Str.LF) eqn:Hlf.
    + destruct f; [apply IH|]. simpl. apply IH.
    + simpl. unfold not_cr at 1. rewrite Hcr. apply IH.
Qed.

Lemma universal_newlines_id (s : string) :
  all_chars not_cr s = true -> Str.universal_newlines false s = s.
Proof.
  induction s as [|c s IH]; [reflexivity|].
  simpl. intros H. apply andb_prop in H as [Hc Hs].
  apply negb_true_iff in Hc. rewrite Hc, (IH Hs).
  destruct (Ascii.eqb c Str.LF) eqn:Hlf; [|reflexivity].
  now apply Ascii.eqb_eq in Hlf as ->.
Qed.

Lemma no_newline_no_cr (s : string) :
  Str.no_newline s = true -> all_chars not_cr s = true.
Proof.
  induction s as [|c s IH]; [reflexivity|].
  simpl. intros H. apply andb_prop in H as [Hc Hs].
  apply andb_prop in Hc as [Hcr _]. unfold not_cr at 1.
  now rewrite Hcr, (IH Hs).
Qed.

Lemma join_cons (l : string) (ls : list string) :
  Str.join "" (l :: ls) = l +:+ Str.join "" ls.
Proof.
  destruct ls as [|l' ls]; cbn [Str.join];
    [now rewrite append_nil_r | now rewrite append_nil_l].
Qed.

Lemma full_line_no_cr (l : string) : full_line l -> all_chars not_cr l = true.
Proof.
  intros (body & -> & Hbody). rewrite all_chars_append.
  now rewrite (no_newline_no_cr _ Hbody).
Qed.

Lemma file_lines_no_cr (ls : list string) :
  file_lines ls -> all_chars not_cr (Str.join "" ls) = true.
Proof.
  induction ls as [|l ls IH]; [reflexivity|].
  intros H. apply file_lines_cons in H. rewrite join_cons, all_chars_append.
  destruct H as [[-> [Hl|[_ Hl]]]|(_ & Hl & Hrest)].
  - now rewrite (full_line_no_cr _ Hl).
  - now rewrite (no_newline_no_cr _ Hl).
  - now rewrite (full_line_no_cr _ Hl), (IH Hrest).
Qed.

Lemma splitlines_full_line (l rest : string) :
  full_line l ->
  Str.splitlines_keepends (l +:+ rest) = l :: Str.splitlines_keepends rest.
Proof.
  intros (body & -> & Hbody). induction body as [|c body IH].
  - rewrite append_nil_l. reflexivity.
  - simpl in Hbody. apply andb_prop in Hbody as [Hc Hbody].
    apply andb_prop in Hc as [_ Hlf]. apply negb_true_iff in Hlf.
    rewrite !append_cons. cbn [Str.splitlines_keepends]. rewrite Hlf.
    now rewrite (IH Hbody).
Qed.

Lemma splitlines_open_line (l : string) :
  open_line l -> Str.splitlines_keepends l = [l].
Proof.
  intros [Hne Hl]. induction l as [|c l IH]; [congruence|].
  simpl in Hl. apply andb_prop in Hl as [Hc Hl].
  apply andb_prop in Hc as [_ Hlf]. apply negb_true_iff in Hlf.
  cbn [Str.splitlines_keepends]. rewrite Hlf.
  destruct l as [|d l]; [reflexivity|].
  now rewrite IH.
Qed.

(** Well-formed lines written one after the other are read back as
    they were. *)
Lemma splitlines_join (ls : list string) :
  file_lines ls -> Str.splitlines_keepends (Str.join "" ls) = ls.
Proof.
  induction ls as [|l ls IH]; [reflexivity|].
  intros H. apply file_lines_cons in H. rewrite join_cons.
  destruct H as [[-> [Hl|Hl]]|(_ & Hl & Hrest)].
  - now rewrite splitlines_full_line.
  - cbn [Str.join]. rewrite append_nil_r. now apply splitlines_open_line.
  - rewrite splitlines_full_line by assumption. now rewrite (IH Hrest).
Qed.

Lemma cbor_prefix_form (ROOT_DIR : string) :
  exists x, CBOR_PREFIX ROOT_DIR = x +:+ "tinycbor".
Proof.
  unfold CBOR_PREFIX, Path.join at 1. cbn [Str.startswith Ascii.eqb]. cbn.
  destruct (_ || _).
  - now exists (DEPS_DIR ROOT_DIR).
  - exists (DEPS_DIR ROOT_DIR +:+ "/"). now rewrite append_assoc.
Qed.

Lemma match_lit_intro (c : ascii) (r : Re.pattern) (from grp s : string) :
  Re.match_here (Re.Lit c :: r) from grp (String c s) = Re.match_here r from grp s.
Proof. cbn [Re.match_here]. now rewrite Ascii.eqb_refl. Qed.

Lemma match_star_intro (p : ascii -> bool) (r : Re.pattern)
    (from grp taken rest g : string) :
  all_chars p taken = true ->
  rest = "" \/ (exists c t, rest = String c t /\ p c = false) ->
  Re.match_here r from grp rest = Some g ->
  Re.match_here (Re.Star p :: r) from grp (taken +:+ rest) = Some g.
Proof.
  intros Hall Hrest Hg. cbn [Re.match_here].
  destruct taken as [|c taken].
  - rewrite append_nil_l, (greedy_stop p _ rest Hrest). exact Hg.
  - rewrite (greedy_longest p _ (String c taken) rest g);
      [reflexivity | discriminate | assumption | now apply greedy_stop
      | assumption].
Qed.

(** A text that is not all blanks has a first word: blanks, then a
    group of characters that are not blanks. *)
Lemma first_word_matches (from grp s : string) :
  all_chars Str.is_space s = false ->
  exists g,
    Re.match_here [Re.Star Str.is_space; Re.GroupOpen; Re.Plus not_space;
                   Re.GroupClose] from grp s = Some g.
Proof.
  intros Hs.
  destruct (longest_run Str.is_space s) as (blanks & rest & -> & Hblanks & Hrest).
  destruct Hrest as [->|(c & t & -> & Hc)].
  { rewrite append_nil_r in Hs. congruence. }
  destruct (longest_run not_space (String c t))
    as (word & rest' & Hsplit & Hword & Hrest').
  assert (Hne : word <> "").
  { intros ->. rewrite append_nil_l in Hsplit. subst rest'.
    destruct Hrest' as [|(c' & t' & [= <- <-] & Hc')]; [discriminate|].
    unfold not_space in Hc'. now rewrite Hc in Hc'. }
  exists (Re.captured (String c t) rest').
  apply match_star_intro; [assumption | right; eauto |].
  cbn [Re.match_here]. rewrite Hsplit.
  apply greedy_longest; try assumption; [now apply greedy_stop | reflexivity].
Qed.

Lemma new_prefix_line_matches (ROOT_DIR : string) :
  exists g,
    Re.rmatch prefix_assignment
      ("prefix = " +:+ CBOR_PREFIX ROOT_DIR +:+ Str.linesep) = Some g.
Proof.
  destruct (first_word_matches "" ""
              (String " " (CBOR_PREFIX ROOT_DIR +:+ Str.linesep))) as [g Hg].
  { destruct (cbor_prefix_form ROOT_DIR) as [x ->].
    change (String " " ?s) with (" " +:+ s).
    now rewrite !all_chars_append, andb_false_r. }
  exists g. unfold Re.rmatch, prefix_assignment. cbn [app Re.lits].
  change ("prefix = " +:+ ?t)
    with ("" +:+ String "p" (String "r" (String "e" (String "f" (String "i"
            (String "x" (" " +:+ String "=" (String " " t)))))))).
  apply match_star_intro; [reflexivity | right; eauto |].
  rewrite !match_lit_intro.
  apply match_star_intro; [reflexivity | right; eauto |].
  rewrite match_lit_intro. exact Hg.
Qed.

Lemma rewritten_line_twice (ROOT_DIR line : string) :
  rewritten_line ROOT_DIR (rewritten_line ROOT_DIR line) =
  rewritten_line ROOT_DIR line.
Proof.
  unfold rewritten_line at 2.
  destruct (Re.rmatch prefix_assignment line) eqn:Hm.
  - unfold rewritten_line. rewrite Hm.
    now destruct (new_prefix_line_matches ROOT_DIR) as [g ->].
  - unfold rewritten_line. now rewrite Hm.
Qed.

Lemma rewritten_file_lines (ROOT_DIR : string) (ls : list string) :
  Str.no_newline (CBOR_PREFIX ROOT_DIR) = true ->
  file_lines ls -> file_lines (map (rewritten_line ROOT_DIR) ls).
Proof.
  intros Hp.
  assert (Hnew : forall l, full_line l -> full_line (rewritten_line ROOT_DIR l)).
  { intros l Hl. unfold rewritten_line.
    destruct (Re.rmatch prefix_assignment l); [|exact Hl].
    exists ("prefix = " +:+ CBOR_PREFIX ROOT_DIR).
    split; [now rewrite append_assoc|].
    now rewrite no_newline_append, Hp. }
  assert (Hlast : forall l, full_line l \/ open_line l ->
                  full_line (rewritten_line ROOT_DIR l) \/
                  open_line (rewritten_line ROOT_DIR l)).
  { intros l [Hl|Hl]; [left; auto|].
    unfold rewritten_line. destruct (Re.rmatch prefix_assignment l); [|auto].
    left. exists ("prefix = " +:+ CBOR_PREFIX ROOT_DIR).
    split; [now rewrite append_assoc|].
    now rewrite no_newline_append, Hp. }
  induction ls as [|l ls IH]; [constructor|].
  intros H. apply file_lines_cons in H. cbn [map]. apply file_lines_cons.
  destruct H as [[-> Hl]|(Hls & Hl & Hrest)].
  - left. auto.
  - right. repeat split; auto. now destruct ls.
Qed.

(** X17.  When the prefix it installs has no line end in it,
    [update_cbor_prefix] is idempotent: run a second time it ends as
    the first run did and leaves the state the first run produced. *)
Theorem update_cbor_prefix_twice (ROOT_DIR makefile : string) (st : state) :
  Str.no_newline (CBOR_PREFIX ROOT_DIR) = true ->
  let once := update_cbor_prefix ROOT_DIR makefile st in
  update_cbor_prefix ROOT_DIR makefile once.2 = once.
Proof.
  intros Hp. cbv zeta. rewrite (update_cbor_prefix_eq ROOT_DIR makefile st).
  destruct (fs st !! makefile) as [text|] eqn:Hfile.
  - cbv zeta.
    set (all_lines := Str.splitlines_keepends (Str.universal_newlines false text)).
    assert (Hlines : file_lines (map (rewritten_line ROOT_DIR) all_lines)).
    { apply rewritten_file_lines; [exact Hp|].
      apply splitlines_file_lines, universal_newlines_no_cr. }
    destruct (snd (update_cbor_prefix_loop ROOT_DIR all_lines false)) eqn:Hwb.
    + rewrite update_cbor_prefix_eq. cbn [snd fs launched].
      rewrite lookup_insert_eq. cbv zeta.
      rewrite (universal_newlines_id _ (file_lines_no_cr _ Hlines)).
      rewrite (splitlines_join _ Hlines).
      rewrite map_map.
      rewrite (map_ext _ _ (rewritten_line_twice ROOT_DIR)).
      destruct (snd (update_cbor_prefix_loop ROOT_DIR
                       (map (rewritten_line ROOT_DIR) all_lines) false));
        [|reflexivity].
      now rewrite insert_insert_eq.
    + rewrite update_cbor_prefix_eq. cbn [snd]. rewrite Hfile. cbv zeta.
      fold all_lines. now rewrite Hwb.
  - rewrite update_cbor_prefix_eq. cbn [snd]. now rewrite Hfile.
Qed.

Lemma update_cbor_prefix_twice_on_makefile :
  update_cbor_prefix Scenario.ROOT "/tinycbor/Makefile"
    (update_cbor_prefix Scenario.ROOT "/tinycbor/Makefile"
       (Scenario.files [("/tinycbor/Makefile",
                         "prefix = /usr/local" +:+ NL +:+ "all: lib")])).2 =
  update_cbor_prefix Scenario.ROOT "/tinycbor/Makefile"
    (Scenario.files [("/tinycbor/Makefile",
                      "prefix = /usr/local" +:+ NL +:+ "all: lib")]).
Proof.
  apply (update_cbor_prefix_twice Scenario.ROOT "/tinycbor/Makefile"
           (Scenario.files [("/tinycbor/Makefile",
                             "prefix = /usr/local" +:+ NL +:+ "all: lib")])).
  reflexivity.
Defined.

(** X18.  [update_cbor_prefix] touches the makefile only: it launches
    nothing and every other file keeps its content.  Without the
    makefile it dies with [ENOENT] as exit code and changes nothing;
    with a makefile of characters below 128, under a root directory
    of such characters, it returns. *)
Theorem update_cbor_prefix_frame (ROOT_DIR makefile : string) (st : state) :
  launched (update_cbor_prefix ROOT_DIR makefile st).2 = launched st /\
  (forall other, other <> makefile ->
     fs (update_cbor_prefix ROOT_DIR makefile st).2 !! other = fs st !! other) /\
  (fs st !! makefile = None ->
   update_cbor_prefix ROOT_DIR makefile st =
   (Die ("not found: " +:+ makefile) ENOENT, st)) /\
  (forall text,
     fs st !! makefile = Some text ->
     ascii_text text = true ->
     ascii_text ROOT_DIR = true ->
     (update_cbor_prefix ROOT_DIR makefile st).1 = Ok tt).
Proof.
  rewrite update_cbor_prefix_eq.
  destruct (fs st !! makefile) as [text|] eqn:Hfile.
  - cbv zeta.
    destruct (snd (update_cbor_prefix_loop _ _ _)); cbn [fst snd fs launched].
    + split; [reflexivity|]. split; [|split; [discriminate | reflexivity]].
      intros other Hother. now rewrite lookup_insert_ne.
    + split; [reflexivity|]. split; [reflexivity|].
      split; [discriminate | reflexivity].
  - cbn [fst snd]. split; [reflexivity|]. split; [reflexivity|].
    split; [reflexivity | discriminate].
Qed.




(** ** [test_ast_extractor] *)

Lemma extractor_is_not_clang (dir : string) :
  String.eqb "clang" (Path.join dir "ast-extractor") = false.
Proof.
  apply String.eqb_neq. intros H. apply (f_equal String.length) in H.
  unfold Path.join in H. cbn [Str.startswith Ascii.eqb] in H. cbn in H.
  destruct (_ || _); rewrite !length_append in H; cbn in H; lia.
Qed.

Lemma launches_include_dirs (w : World) (counted : string) (st : state) :
  String.eqb "clang" counted = false ->
  launches counted (get_system_include_dirs w st).2 = launches counted st.
Proof.
  intros Hne. unfold get_system_include_dirs, get_cmd_or_die, run, popen.
  destruct (which w "clang"); unfold_m; cbn [fst snd]; [|reflexivity].
  destruct (decide _); cbn [snd]; rewrite launches_launch, Hne; lia.
Qed.

Lemma launches_extract_all (w : World) (ast_extr cc_db_path : string)
    (sys_incl_dirs : list string) (cc_db : list compile_cmd)
    (cbor_files : list string) (st st' : state) :
  map_m (extract_ast_from w ast_extr cc_db_path sys_incl_dirs) cc_db st =
  (Ok cbor_files, st') ->
  launches ast_extr st' = (launches ast_extr st + length cc_db)%nat /\
  Forall (fun c => is_Some (directory c) /\ is_Some (file c)) cc_db /\
  length cbor_files = length cc_db.
Proof.
  revert cbor_files st st'.
  induction cc_db as [|c cc_db IH]; intros cbor_files st st'.
  - intros [= <- <-]. cbn. repeat split; [lia | constructor].
  - cbn [map_m].
    destruct (extract_ast_from w ast_extr cc_db_path sys_incl_dirs c st)
      as [[p|?|?] st1] eqn:Hc;
      [rewrite (bind_ok _ _ _ _ _ Hc)
      |now rewrite (bind_die _ _ _ _ _ _ Hc)
      |now rewrite (bind_raise _ _ _ _ _ Hc)].
    destruct (map_m (extract_ast_from w ast_extr cc_db_path sys_incl_dirs) cc_db st1)
      as [[ps|?|?] st2] eqn:Hrest;
      [rewrite (bind_ok _ _ _ _ _ Hrest)
      |now rewrite (bind_die _ _ _ _ _ _ Hrest)
      |now rewrite (bind_raise _ _ _ _ _ Hrest)].
    intros [= <- <-]. destruct (IH ps st1 st2 Hrest) as (Hn & Hkeys & Hlen).
    destruct (directory c) as [dir|] eqn:Hdir;
      [|unfold extract_ast_from in Hc; now rewrite Hdir in Hc].
    destruct (file c) as [filename|] eqn:Hfile;
      [|unfold extract_ast_from in Hc; now rewrite Hdir, Hfile in Hc].
    rewrite (extract_ast_from_eq w _ _ _ _ dir filename st Hdir Hfile) in Hc.
    cbv zeta in Hc.
    destruct (fs st !! Path.join dir filename); [|discriminate].
    destruct (decide (retcode _ = 0));
      [|apply (f_equal fst) in Hc; now apply extract_ast_from_failed in Hc].
    destruct (fs _ !! (_ +:+ ".cbor")); [|discriminate].
    injection Hc as <- <-. rewrite launches_launch, String.eqb_refl in Hn.
    repeat split.
    + rewrite Hn. cbn [length]. lia.
    + constructor; [rewrite Hdir, Hfile; eauto | exact Hkeys].
    + cbn [length]. now rewrite Hlen.
Qed.

(** X20.  When the sanity test [test_ast_extractor] returns, the host
    is not macOS, the extractor binary exists, every entry of the
    database has the keys [directory] and [file], and the extractor
    was launched once for each entry of the database. *)
Theorem sanity_test_runs_every_entry (w : World) (ROOT_DIR : string)
    (platform cc_db_path : string) (cc_db : list compile_cmd) (st : state) :
  (test_ast_extractor w ROOT_DIR platform cc_db_path cc_db st).1 = Ok tt ->
  let ast_extr := Path.join (LLVM_BIN ROOT_DIR) "ast-extractor" in
  on_mac platform = false /\
  is_Some (fs st !! ast_extr) /\
  Forall (fun c => is_Some (directory c) /\ is_Some (file c)) cc_db /\
  launches ast_extr (test_ast_extractor w ROOT_DIR platform cc_db_path cc_db st).2 =
  (launches ast_extr st + length cc_db)%nat.
Proof.
  cbv zeta. unfold test_ast_extractor.
  destruct (on_mac platform) eqn:Hmac; cbn [negb]; [discriminate|].
  rewrite (bind_ok (assert true _) _ st st tt eq_refl).
  rewrite (bind_ok (isfile _) _ st st _ eq_refl).
  destruct (fs st !! Path.join (LLVM_BIN ROOT_DIR) "ast-extractor") as [bin|];
    cbn [negb]; [|discriminate].
  rewrite (bind_ok (ret tt) _ st st tt eq_refl).
  unfold get_cmd_or_die.
  destruct (which w _); [|discriminate].
  rewrite (bind_ok (ret _) _ st st _ eq_refl).
  pose proof (launches_include_dirs w _ st
                (extractor_is_not_clang (LLVM_BIN ROOT_DIR))) as Hdirs.
  destruct (get_system_include_dirs w st) as [[include_dirs|?|?] st1] eqn:Hinc;
    [rewrite (bind_ok _ _ _ _ _ Hinc)
    |now rewrite (bind_die _ _ _ _ _ _ Hinc)
    |now rewrite (bind_raise _ _ _ _ _ Hinc)].
  cbn [snd] in Hdirs.
  rewrite (bind_ok (isfile cc_db_path) _ st1 st1 _ eq_refl).
  destruct (fs st1 !! cc_db_path); cbn [negb]; [|discriminate].
  rewrite (bind_ok (ret tt) _ st1 st1 tt eq_refl).
  destruct (map_m (extract_ast_from w (Path.join (LLVM_BIN ROOT_DIR) "ast-extractor")
                     cc_db_path include_dirs) cc_db st1)
    as [[cbor_files|?|?] st2] eqn:Hall;
    [rewrite (bind_ok _ _ _ _ _ Hall)
    |now rewrite (bind_die _ _ _ _ _ _ Hall)
    |now rewrite (bind_raise _ _ _ _ _ Hall)].
  intros _. apply launches_extract_all in Hall as (Hn & Hkeys & _).
  unfold_m. cbn [snd]. rewrite Hn, Hdirs. eauto.
Qed.

Lemma sanity_test_on_three_entries :
  launches Scenario.AST_EXTRACTOR
    (test_ast_extractor Scenario.good_host Scenario.ROOT
       "Linux-4.4.0-Ubuntu-16.04-xenial" "/p/compile_commands.json"
       Scenario.three_entries
       (Scenario.files [("/p/a.c", "int a;"); ("/p/b.c", "int b;");
                        ("/p/c.c", "int c;"); ("/p/compile_commands.json", "[]");
                        (Scenario.AST_EXTRACTOR, "ELF")])).2 = 3%nat.
Proof.
  destruct (sanity_test_runs_every_entry Scenario.good_host Scenario.ROOT
              "Linux-4.4.0-Ubuntu-16.04-xenial" "/p/compile_commands.json"
              Scenario.three_entries
              (Scenario.files [("/p/a.c", "int a;"); ("/p/b.c", "int b;");
                               ("/p/c.c", "int c;");
                               ("/p/compile_commands.json", "[]");
                               (Scenario.AST_EXTRACTOR, "ELF")]) eq_refl)
    as (_ & _ & _ & H).
  exact H.
Defined.

(** ** The configuration marker of [build.ninja] *)

Lemma word_is_not_space (c : ascii) :
  Str.is_word c = true -> Str.is_space c = false.
Proof.
  destruct c as [[] [] [] [] [] [] [] []]; vm_compute; intros H;
    first [reflexivity | discriminate H].
Qed.

Lemma match_lits_intro (lit : string) (r : Re.pattern) (from grp s : string) :
  Re.match_here (Re.lits lit ++ r) from grp (lit +:+ s) =
  Re.match_here r from grp s.
Proof.
  induction lit as [|c lit IH]; [reflexivity|].
  rewrite append_cons. cbn [Re.lits app]. rewrite match_lit_intro. exact IH.
Qed.

Lemma match_lits_inv (lit : string) (r : Re.pattern) (from grp s g : string) :
  Re.match_here (Re.lits lit ++ r) from grp s = Some g ->
  exists s', s = lit +:+ s' /\ Re.match_here r from grp s' = Some g.
Proof.
  revert s. induction lit as [|c lit IH]; intros s H.
  - exists s. split; [reflexivity | exact H].
  - cbn [Re.lits app] in H. apply match_lit_inv in H as (s1 & -> & H).
    destruct (IH s1 H) as (s' & -> & H'). exists s'.
    split; [now rewrite append_cons | exact H'].
Qed.

(** The group [(p+)] at the end of a pattern takes the longest run of
    [p] there is. *)
Lemma match_last_group (p : ascii -> bool) (from grp word rest : string) :
  word <> "" ->
  all_chars p word = true ->
  rest = "" \/ (exists c t, rest = String c t /\ p c = false) ->
  Re.match_here [Re.GroupOpen; Re.Plus p; Re.GroupClose] from grp (word +:+ rest) =
  Some word.
Proof.
  intros Hne Hword Hrest.
  change (Re.greedy p (Re.match_here [Re.GroupClose] (word +:+ rest) grp)
            (word +:+ rest) = Some word).
  apply greedy_longest; [assumption | assumption | now apply greedy_stop |].
  cbn [Re.match_here]. now rewrite captured_append.
Qed.

(** The pattern of [get_ninja_build_type] matches the marker lines,
    with the flavor they record as its group, and nothing else. *)
Lemma configuration_matches (line flavor : string) :
  records_flavor line flavor -> Re.rmatch Re.configuration line = Some flavor.
Proof.
  intros (blanks1 & blanks2 & rest & -> & Hb1 & Hb2 & Hne & Hword & Hrest).
  assert (Hfirst : exists c t, flavor +:+ rest = String c t /\ Str.is_space c = false).
  { destruct flavor as [|c flavor]; [congruence|].
    cbn [all_chars] in Hword. apply andb_prop in Hword as [Hc _].
    exists c, (flavor +:+ rest).
    split; [apply append_cons | now apply word_is_not_space]. }
  unfold Re.rmatch, Re.configuration. cbn [app].
  rewrite (append_cons "#" ""), append_nil_l, match_lit_intro.
  apply match_star_intro; [exact Hb1 | |].
  { right. exists "C"%char, ("onfiguration:" +:+ blanks2 +:+ flavor +:+ rest).
    split; reflexivity. }
  rewrite match_lits_intro.
  apply match_star_intro; [exact Hb2 | right; exact Hfirst |].
  now apply match_last_group.
Qed.

Lemma configuration_match_inv (line g : string) :
  Re.rmatch Re.configuration line = Some g -> records_flavor line g.
Proof.
  unfold Re.rmatch, Re.configuration. cbn [app]. intros H.
  apply match_lit_inv in H as (s1 & -> & H).
  apply match_star_inv in H as (blanks1 & s2 & -> & Hb1 & H).
  apply match_lits_inv in H as (s3 & -> & H).
  apply match_star_inv in H as (blanks2 & s4 & -> & Hb2 & H).
  destruct (longest_run Str.is_word s4) as (word & rest & -> & Hword & Hrest).
  assert (Hne : word <> "").
  { intros ->. rewrite append_nil_l in H.
    change (Re.greedy Str.is_word (Re.match_here [Re.GroupClose] rest "") rest =
            Some g) in H.
    now rewrite (greedy_stop _ _ rest Hrest) in H. }
  rewrite (match_last_group Str.is_word _ _ word rest Hne Hword Hrest) in H.
  injection H as <-.
  exists blanks1, blanks2, rest. repeat split; auto.
Qed.

Lemma no_flavor_no_match (line : string) :
  (forall f, ~ records_flavor line f) <-> Re.rmatch Re.configuration line = None.
Proof.
  split.
  - intros Hno. destruct (Re.rmatch Re.configuration line) as [g|] eqn:Hm;
      [|reflexivity].
    now apply configuration_match_inv, Hno in Hm.
  - intros Hnone f Hf. apply configuration_matches in Hf. congruence.
Qed.


Lemma first_match_split (r : Re.pattern) (lines : list string) (g : string) :
  first_match r lines = Some g ->
  exists before line behind,
    lines = before ++ line :: behind /\
    Forall (fun l => Re.rmatch r l = None) before /\
    Re.rmatch r line = Some g.
Proof.
  induction lines as [|l lines IH]; cbn [first_match]; [discriminate|].
  destruct (Re.rmatch r l) as [g'|] eqn:Hl.
  - intros [= <-]. exists [], l, lines. repeat split; [constructor | exact Hl].
  - intros H. destruct (IH H) as (before & line & behind & -> & Hbefore & Hline).
    exists (l :: before), line, behind. repeat split; [|exact Hline].
    now constructor.
Qed.




(** X2.  On a [build.ninja] of characters below 128, when
    [get_ninja_build_type] returns a build type, the file starts with
    the line of the generator, the build type is the flavor that the
    first configuration marker of the file records, a non-empty word
    of letters, digits and underscores, and the state is left as it
    was. *)
Theorem recovered_build_type_is_a_word (ninja_build_file build_type : string)
    (st : state) :
  (forall text, fs st !! ninja_build_file = Some text -> ascii_text text = true) ->
  (get_ninja_build_type ninja_build_file st).1 = Ok build_type ->
  (exists text before marker behind,
     fs st !! ninja_build_file = Some text /\
     Str.splitlines_keepends (Str.universal_newlines false text) =
     ("# CMAKE generated file: DO NOT EDIT!" +:+ Str.linesep) ::
     before ++ marker :: behind /\
     Forall (fun l => forall f, ~ records_flavor l f) before /\
     records_flavor marker build_type) /\
  build_type <> "" /\
  all_chars Str.is_word build_type = true /\
  (get_ninja_build_type ninja_build_file st).2 = st.
Proof.
  intros _ H.
  assert (Hinv : exists text lines,
             fs st !! ninja_build_file = Some text /\
             Str.splitlines_keepends (Str.universal_newlines false text) =
             ("# CMAKE generated file: DO NOT EDIT!" +:+ Str.linesep) :: lines /\
             first_match Re.configuration
               (("# CMAKE generated file: DO NOT EDIT!" +:+ Str.linesep) :: lines) =
             Some build_type).
  { revert H. unfold get_ninja_build_type. unfold_m.
    destruct (fs st !! ninja_build_file) as [text|]; [|discriminate].
    destruct (Str.splitlines_keepends _) as [|line0 lines] eqn:Hlines;
      [discriminate|].
    destruct (String.eqb_spec line0
                ("# CMAKE generated file: DO NOT EDIT!" +:+ Str.linesep))
      as [->|]; cbn [negb]; [|discriminate].
    destruct (first_match _ _) as [g|] eqn:Hm; [|discriminate].
    cbn [fst]. intros [= <-]. exists text, lines. auto. }
  destruct Hinv as (text & lines & Hfile & Hlines & Hm).
  apply first_match_split in Hm
    as (before0 & marker & behind & Hsplit & Hbefore & Hmarker).
  destruct before0 as [|line0 before].
  { cbn [app] in Hsplit. injection Hsplit as <- _. discriminate Hmarker. }
  cbn [app] in Hsplit. injection Hsplit as <- ->.
  apply Forall_cons in Hbefore as [_ Hbefore].
  apply configuration_match_inv in Hmarker.
  split.
  - exists text, before, marker, behind. repeat split; try assumption.
    eapply Forall_impl; [exact Hbefore|].
    intros l Hl. now apply no_flavor_no_match.
  - destruct Hmarker as (_ & _ & _ & _ & _ & _ & Hne & Hword & _).
    repeat split; try assumption. apply get_ninja_build_type_state.
Qed.

Lemma recovered_release_is_a_word :
  (get_ninja_build_type Scenario.BUILD_NINJA Scenario.configured_release).1 =
  Ok "Release" /\
  "Release" <> "" /\ all_chars Str.is_word "Release" = true.
Proof.
  split; [reflexivity|].
  destruct (recovered_build_type_is_a_word Scenario.BUILD_NINJA "Release"
              Scenario.configured_release) as (_ & Hne & Hword & _).
  - intros text Htext. vm_compute in Htext. injection Htext as <-. reflexivity.
  - reflexivity.
  - split; assumption.
Defined.
